(** * News Intelligence Agent: chat front end and processing pipeline

    A shallow embedding of the chat handler of [frontend/src/App.js]
    (with [components/InputArea.js]) and of the processing pipeline the
    handler talks to, together with the properties stated about them. *)

From stdpp Require Import gmap list strings.
From Stdlib Require Import NArith ZArith QArith Qround Qabs DecimalString Lia.

Local Open Scope nat_scope.

(** ** JavaScript strings

    A JavaScript string is a sequence of UTF-16 code units; [length],
    [split], [includes], [substring] and [trim] all work on code units. *)
Module JS.

Definition jsstring := list N.

(** *** Literals: the UTF-8 bytes of a Rocq string literal, re-encoded in UTF-16 *)

Definition bytes_of (s : string) : list N :=
  map (fun a => Ascii.N_of_ascii a) (String.list_ascii_of_string s).

Definition cont (b : N) : N := N.land b 63.

Fixpoint code_points (bs : list N) : list N :=
  match bs with
  | [] => []
  | b1 :: r1 =>
      if (b1 <? 128)%N then b1 :: code_points r1
      else if (b1 <? 224)%N then
        match r1 with
        | b2 :: r2 => (N.shiftl (N.land b1 31) 6 + cont b2)%N :: code_points r2
        | [] => []
        end
      else if (b1 <? 240)%N then
        match r1 with
        | b2 :: b3 :: r3 =>
            (N.shiftl (N.land b1 15) 12 + N.shiftl (cont b2) 6 + cont b3)%N
              :: code_points r3
        | _ => []
        end
      else
        match r1 with
        | b2 :: b3 :: b4 :: r4 =>
            (N.shiftl (N.land b1 7) 18 + N.shiftl (cont b2) 12
             + N.shiftl (cont b3) 6 + cont b4)%N :: code_points r4
        | _ => []
        end
  end.

Definition code_units (cp : N) : list N :=
  if (cp <? 65536)%N then [cp]
  else let v := (cp - 65536)%N in
       [(55296 + N.shiftr v 10)%N; (56320 + N.land v 1023)%N].

Definition lit (s : string) : jsstring :=
  List.concat (map code_units (code_points (bytes_of s))).

(** *** [String.prototype.trim]

    [trim] strips WhiteSpace and LineTerminator code points from both
    ends: TAB, VT, FF, SP, NBSP, ZWNBSP, the Zs category, LF, CR, LS, PS. *)
Definition isWhiteSpace (c : N) : bool :=
  ((c =? 9) || (c =? 10) || (c =? 11) || (c =? 12) || (c =? 13) || (c =? 32)
   || (c =? 160) || (c =? 5760) || ((8192 <=? c) && (c <=? 8202))
   || (c =? 8232) || (c =? 8233) || (c =? 8239) || (c =? 8287)
   || (c =? 12288) || (c =? 65279))%N.

Fixpoint trimStart (s : jsstring) : jsstring :=
  match s with
  | c :: r => if isWhiteSpace c then trimStart r else s
  | [] => []
  end.

Definition trimEnd (s : jsstring) : jsstring := rev (trimStart (rev s)).

Definition trim (s : jsstring) : jsstring := trimEnd (trimStart s).

(** A string is blank when it is empty or made of white space only. *)
Definition blank (s : jsstring) : bool := forallb isWhiteSpace s.

(** ToBoolean on a string: only the empty string is falsy. *)
Definition truthy (s : jsstring) : bool :=
  match s with [] => false | _ => true end.

(** [a || b] on strings. *)
Definition orElse (a b : jsstring) : jsstring := if truthy a then a else b.

(** *** [split('\n')], [slice(1)], [join('\n')] *)

Definition LF : N := 10%N.

Fixpoint splitLines (s : jsstring) : jsstring * list jsstring :=
  match s with
  | [] => ([], [])
  | c :: r =>
      let '(l, ls) := splitLines r in
      if (c =? LF)%N then ([], l :: ls) else (c :: l, ls)
  end.

(** [s.split('\n')] never returns an empty array. *)
Definition split (s : jsstring) : list jsstring :=
  let '(l, ls) := splitLines s in l :: ls.

Fixpoint join (ls : list jsstring) : jsstring :=
  match ls with
  | [] => []
  | [l] => l
  | l :: r => l ++ LF :: join r
  end.

(** *** [includes] and [substring(0, n)] *)

Fixpoint startsWith (s k : jsstring) : bool :=
  match k, s with
  | [], _ => true
  | _ :: _, [] => false
  | a :: k', b :: s' => (a =? b)%N && startsWith s' k'
  end.

Fixpoint includes (s k : jsstring) : bool :=
  startsWith s k ||
  match s with
  | [] => false
  | _ :: r => includes r k
  end.

Definition substring0 (n : nat) (s : jsstring) : jsstring := firstn n s.

End JS.

Import JS.

(** ** Host built-ins

    What the handler takes from the JavaScript host and does not write
    itself: the number type of parsed JSON with its truthiness, product
    and [toFixed], Unicode lower-casing and locale date formatting.  The
    development is parametric in them. *)
Class Host := {
  num : Type;
  (** ToBoolean on a number: false on zero and NaN only. *)
  num_truthy : num -> bool;
  (** [x * 100]. *)
  times100 : num -> num;
  (** [x.toFixed(digits)]. *)
  toFixed : num -> nat -> jsstring;
  (** [s.toLowerCase()]. *)
  toLowerCase : jsstring -> jsstring;
  (** [new Date(s).toLocaleDateString()]. *)
  toLocaleDateString : jsstring -> jsstring
}.

(** A property read off a parsed JSON object: missing, [null], or a value. *)
Inductive field (A : Type) : Type :=
| Undefined
| Null
| Val (a : A).
Arguments Undefined {A}.
Arguments Null {A}.
Arguments Val {A} a.

(** Template interpolation [`${x}`] of a string-valued property. *)
Definition show (f : field jsstring) : jsstring :=
  match f with
  | Undefined => lit "undefined"
  | Null => lit "null"
  | Val s => s
  end.

(** [f || d] where [f] is a string-valued property and [d] a string. *)
Definition strOr (f : field jsstring) (d : jsstring) : jsstring :=
  match f with
  | Val s => orElse s d
  | _ => d
  end.

(** ToBoolean of a string-valued property. *)
Definition strTruthy (f : field jsstring) : bool :=
  match f with
  | Val s => truthy s
  | _ => false
  end.

(** [o?.p]: [undefined] when [o] is nullish, the property otherwise. *)
Definition optChain {A B : Type} (o : field A) (p : A -> field B) : field B :=
  match o with
  | Val a => p a
  | _ => Undefined
  end.

(** ** Shapes of the two JSON replies (section 6 of the interface) *)

Module SentimentAnalysis.
Record t `{Host} := { sentiment : field jsstring; confidence : field num }.
End SentimentAnalysis.

Module FakeNewsDetection.
Record t `{Host} := { prediction : field jsstring; confidence : field num }.
End FakeNewsDetection.

Module Source.
Record t := { name : field jsstring }.
End Source.

Module OriginalArticle.
Record t := {
  description : field jsstring;
  content : field jsstring;
  source : field Source.t;
  published_at : field jsstring
}.
End OriginalArticle.

Module Article.
Record t `{Host} := {
  title : field jsstring;
  summary : field jsstring;
  source : field jsstring;
  sentiment_analysis : field SentimentAnalysis.t;
  fake_news_detection : field FakeNewsDetection.t;
  original_article : field OriginalArticle.t
}.
End Article.

Module FetchData.
Record t `{Host} := { processed_articles : field (list Article.t) }.
End FetchData.

(** ** The chat application ([App.js]) *)

Inductive Sender := user | bot.

Record Message := { text : jsstring; sender : Sender; timestamp : N }.

Record AppState := {
  messages : list Message;
  inputValue : jsstring;
  isLoading : bool
}.

Module ProcessBody.
Record t := {
  title : jsstring;
  content : jsstring;
  source : jsstring;
  include_analysis : bool
}.
End ProcessBody.

Module FetchBody.
Record t := { query : jsstring; page_size : N; include_analysis : bool }.
End FetchBody.

Inductive Body :=
| OfProcess (b : ProcessBody.t)
| OfFetch (b : FetchBody.t).

(** One call of [fetch(url, {method, headers, body: JSON.stringify(..)})]. *)
Record Request := {
  url : jsstring;
  method : jsstring;
  headers : list (jsstring * jsstring);
  body : Body
}.

(** How a [fetch] call and the reading of its reply can end. *)
Inductive Reply (A : Type) : Type :=
| NetworkFailure   (** the promise returned by [fetch] rejects *)
| HttpError        (** [response.ok] is false *)
| Unusable         (** [response.json()] rejects, or the value it yields
                       makes a property read in the handler raise *)
| Json (a : A).    (** [response.ok], and the body has the documented shape *)
Arguments NetworkFailure {A}.
Arguments HttpError {A}.
Arguments Unusable {A}.
Arguments Json {A} a.

(** A value of [Math.random()]: a number in the interval [0, 1). *)
Record UnitReal := {
  ur : Q;
  ur_range : Qle_bool 0 ur && negb (Qle_bool 1 ur) = true
}.

(** How the [try] block of the handler ends. *)
Inductive Completion :=
| Normal (t : jsstring)   (** [botMessage.text] *)
| Throw.

Definition strictEq : jsstring -> jsstring -> bool :=
  fix eq (a b : jsstring) : bool :=
    match a, b with
    | [], [] => true
    | x :: a', y :: b' => (x =? y)%N && eq a' b'
    | _, _ => false
    end.

Section App.
Context `{H : Host}.

(** Everything outside the handler that one invocation can observe. *)
Record World := {
  api_process : ProcessBody.t -> Reply Article.t;
  api_fetch_and_process : FetchBody.t -> Reply FetchData.t;
  random : UnitReal;
  userTime : N;
  botTime : N
}.

Definition initialMessages (t0 : N) : list Message :=
  [ {| text := lit "Welcome to the Galaxy News Intelligence Chatbot! 🌌 I can help you analyze news articles, detect fake news, and provide sentiment analysis. What would you like to explore?";
       sender := bot; timestamp := t0 |} ].

Definition initialState (t0 : N) : AppState :=
  {| messages := initialMessages t0; inputValue := []; isLoading := false |}.

(** *** Pieces of the reply templates *)

(** [article.sentiment_analysis || {}] *)
Definition sentimentOf (a : Article.t) : SentimentAnalysis.t :=
  match Article.sentiment_analysis a with
  | Val s => s
  | _ => {| SentimentAnalysis.sentiment := Undefined;
            SentimentAnalysis.confidence := Undefined |}
  end.

(** [article.fake_news_detection || {}] *)
Definition fakeNewsOf (a : Article.t) : FakeNewsDetection.t :=
  match Article.fake_news_detection a with
  | Val f => f
  | _ => {| FakeNewsDetection.prediction := Undefined;
            FakeNewsDetection.confidence := Undefined |}
  end.

(** [article.summary || article.original_article?.description
     || article.original_article?.content?.substring(0, n) + '...'] *)
Definition summaryOf (n : nat) (a : Article.t) : jsstring :=
  let oa := Article.original_article a in
  strOr (Article.summary a)
    (strOr (optChain oa OriginalArticle.description)
       (show (optChain (optChain oa OriginalArticle.content)
                (fun s => Val (substring0 n s))) ++ lit "...")).

(** [sentiment.sentiment || 'Neutral'] *)
Definition sentimentLabel (s : SentimentAnalysis.t) : jsstring :=
  strOr (SentimentAnalysis.sentiment s) (lit "Neutral").

(** [sentiment.confidence ? `(${sentiment.confidence.toFixed(2)})` : ''] *)
Definition sentimentConfidence (s : SentimentAnalysis.t) : jsstring :=
  match SentimentAnalysis.confidence s with
  | Val x => if num_truthy x then lit "(" ++ toFixed x 2 ++ lit ")" else []
  | _ => []
  end.

(** [fakeNews.confidence ? `${(fakeNews.confidence * 100).toFixed(0)}%` : 'High'] *)
Definition credibilityScore (f : FakeNewsDetection.t) : jsstring :=
  match FakeNewsDetection.confidence f with
  | Val x =>
      if num_truthy x then toFixed (times100 x) 0 ++ lit "%" else lit "High"
  | _ => lit "High"
  end.

Definition fakeVerdict : jsstring := lit "⚠️ Potential fake news detected".
Definition authenticVerdict : jsstring := lit "✅ Likely authentic".

(** [fakeNews.prediction === 'fake' ? '⚠️ ...' : '✅ Likely authentic'] *)
Definition credibilityVerdict (f : FakeNewsDetection.t) : jsstring :=
  match FakeNewsDetection.prediction f with
  | Val p => if strictEq p (lit "fake") then fakeVerdict else authenticVerdict
  | _ => authenticVerdict
  end.

(** [article.source || article.original_article?.source?.name || 'Unknown'] *)
Definition sourceOf (a : Article.t) : jsstring :=
  strOr (Article.source a)
    (strOr (optChain (optChain (Article.original_article a)
                        OriginalArticle.source) Source.name)
       (lit "Unknown")).

(** [article.original_article?.published_at] *)
Definition publishedAt (a : Article.t) : field jsstring :=
  optChain (Article.original_article a) OriginalArticle.published_at.

(** *** The three analysis templates, line by line *)

Definition articleAnalysisText (article : Article.t) : jsstring :=
  let sentiment := sentimentOf article in
  let fakeNews := fakeNewsOf article in
  join
    [ lit "📄 **Article Analysis:**";
      [];
      lit "**" ++ show (Article.title article) ++ lit "**";
      [];
      summaryOf 300 article;
      [];
      lit "🔍 **Analysis Results:**";
      lit "- Sentiment: " ++ sentimentLabel sentiment ++ lit " "
        ++ sentimentConfidence sentiment;
      lit "- Credibility: " ++ credibilityScore fakeNews ++ lit " "
        ++ credibilityVerdict fakeNews;
      lit "- Source: " ++ strOr (Article.source article) (lit "User provided");
      [];
      lit "*Analysis completed using AI-powered news intelligence.*" ].

Definition trendAnalysisText (userText : jsstring) (article : Article.t)
  : jsstring :=
  let sentiment := sentimentOf article in
  let fakeNews := fakeNewsOf article in
  join
    [ lit "📈 **Trend Analysis for: " ++ userText ++ lit "**";
      [];
      lit "**" ++ show (Article.title article) ++ lit "**";
      [];
      summaryOf 200 article;
      [];
      lit "🔍 **Trend Insights:**";
      lit "- Current Sentiment: " ++ sentimentLabel sentiment ++ lit " "
        ++ sentimentConfidence sentiment;
      lit "- Credibility Score: " ++ credibilityScore fakeNews ++ lit " "
        ++ credibilityVerdict fakeNews;
      lit "- Source: " ++ sourceOf article;
      lit "- Published: "
        ++ (if strTruthy (publishedAt article)
            then toLocaleDateString (show (publishedAt article))
            else lit "Recent");
      [];
      lit "*This analysis represents the latest developments in this trend. For comprehensive trend analysis, consider checking multiple sources over time.*" ].

Definition latestNewsText (article : Article.t) : jsstring :=
  let sentiment := sentimentOf article in
  let fakeNews := fakeNewsOf article in
  join
    [ lit "📰 **Latest News:**";
      [];
      lit "**" ++ show (Article.title article) ++ lit "**";
      [];
      summaryOf 200 article;
      [];
      lit "🔍 **Analysis:**";
      lit "- Sentiment: " ++ sentimentLabel sentiment ++ lit " "
        ++ sentimentConfidence sentiment;
      lit "- Credibility: " ++ credibilityScore fakeNews ++ lit " "
        ++ credibilityVerdict fakeNews;
      lit "- Source: " ++ sourceOf article;
      [];
      if strTruthy (publishedAt article)
      then lit "Published: " ++ toLocaleDateString (show (publishedAt article))
      else [] ].

(** *** [handleSendMessage] *)

Definition isNewsQuery (t : jsstring) : bool :=
  includes (toLowerCase t) (lit "news") ||
  includes (toLowerCase t) (lit "article") ||
  includes (toLowerCase t) (lit "analyze") ||
  includes (toLowerCase t) (lit "trend") ||
  includes (toLowerCase t) (lit "trends") ||
  includes (toLowerCase t) (lit "recent") ||
  includes (toLowerCase t) (lit "latest") ||
  includes (toLowerCase t) (lit "development") ||
  includes (toLowerCase t) (lit "developments") ||
  includes (toLowerCase t) (lit "progress") ||
  includes (toLowerCase t) (lit "evolution").

Definition isTrendQuery (t : jsstring) : bool :=
  includes (toLowerCase t) (lit "trend") ||
  includes (toLowerCase t) (lit "trends") ||
  includes (toLowerCase t) (lit "progress") ||
  includes (toLowerCase t) (lit "evolution").

Definition isArticleContent (t : jsstring) : bool := 200 <? length t.

Definition generalResponses : list jsstring :=
  [ lit "Hello! I'm your Galaxy News Intelligence Chatbot. 🌌 I can help you analyze news trends, detect fake news, and provide sentiment analysis. Try asking me about AI trends, recent developments, or current news topics!";
    lit "I'm here to help you understand news trends! 📈 Ask me about trends in AI, technology, or any topic, and I'll provide trend analysis, sentiment analysis, and fake news detection.";
    lit "Welcome to the future of news analysis! 🔍 I can analyze news trends, track developments over time, and provide comprehensive analysis. What trend interests you?";
    lit "I'm your AI-powered news analyst! ⚡ I can help you identify trends, analyze sentiment, and track the evolution of any topic. Ask me about AI trends or any recent developments!" ].

(** [Math.floor(Math.random() * generalResponses.length)]; the product of
    a double below one with a small power of two is exact. *)
Definition randomIndex (r : UnitReal) : nat :=
  Z.to_nat (Qfloor (ur r * inject_Z (Z.of_nat (length generalResponses)))%Q).

(** [generalResponses[i]]; [randomIndex] never leaves the table, and the
    empty default stands for the [undefined] of an index outside it. *)
Definition randomResponse (r : UnitReal) : jsstring :=
  nth (randomIndex r) generalResponses [].

Definition noResultsText : jsstring :=
  lit "I couldn't find any relevant news articles. Try asking about a different topic! 🔄".

Definition errorText : jsstring :=
  lit "I'm having trouble connecting to the analysis service. Please try again in a moment. ⚠️".

Definition post (u : string) (b : Body) : Request :=
  {| url := lit u;
     method := lit "POST";
     headers := [(lit "Content-Type", lit "application/json")];
     body := b |}.

(** The [try] block: the text of [botMessage] or a thrown error, with
    the requests issued on the way. *)
Definition respond (w : World) (userText : jsstring)
  : Completion * list Request :=
  if isArticleContent userText then
    let lines := split userText in
    let title := orElse (nth 0 lines []) (lit "User Provided Article") in
    let content := orElse (trim (join (skipn 1 lines))) userText in
    let b := {| ProcessBody.title := title;
                ProcessBody.content := content;
                ProcessBody.source := lit "User Input";
                ProcessBody.include_analysis := true |} in
    (match api_process w b with
     | Json article => Normal (articleAnalysisText article)
     | _ => Throw
     end,
     [post "http://localhost:8000/api/process" (OfProcess b)])
  else if isNewsQuery userText then
    let b := {| FetchBody.query := userText;
                FetchBody.page_size := 5;
                FetchBody.include_analysis := true |} in
    (match api_fetch_and_process w b with
     | Json data =>
         let processed_articles :=
           match FetchData.processed_articles data with
           | Val l => l
           | _ => []
           end in
         match processed_articles with
         | article :: _ =>
             Normal (if isTrendQuery userText
                     then trendAnalysisText userText article
                     else latestNewsText article)
         | [] => Normal noResultsText
         end
     | _ => Throw
     end,
     [post "http://localhost:8000/api/fetch-and-process" (OfFetch b)])
  else
    (* general chat: after a pause of 800 ms, one of the fixed responses *)
    (Normal (randomResponse (random w)), []).

(** [userMessage], and [botMessage] or, after a throw, [errorMsg]. *)
Definition userMessage (w : World) (st : AppState) : Message :=
  {| text := trim (inputValue st); sender := user; timestamp := userTime w |}.

Definition botMessage (w : World) (outcome : Completion) : Message :=
  match outcome with
  | Normal t => {| text := t; sender := bot; timestamp := botTime w |}
  | Throw => {| text := errorText; sender := bot; timestamp := botTime w |}
  end.

Definition handleSendMessage (w : World) (st : AppState)
  : AppState * list Request :=
  if negb (truthy (trim (inputValue st))) || isLoading st then (st, [])
  else
    let '(outcome, requests) := respond w (text (userMessage w st)) in
    ({| messages := (messages st ++ [userMessage w st])
                      ++ [botMessage w outcome];
        inputValue := [];
        isLoading := false |},
     requests).

(** *** The input control ([InputArea.js]) *)

Definition maxLength : nat := 500.

(** The send button is disabled on a blank input and while loading. *)
Definition isDisabled (st : AppState) : bool :=
  negb (truthy (trim (inputValue st))) || isLoading st.

(** What the user can do: edit the text field, whose [maxLength] the
    browser enforces on every edit, or ask for the message to be sent
    (the button, or Enter through [handleKeyPress]). *)
Inductive step : AppState -> AppState -> Prop :=
| step_change st v :
    isLoading st = false ->
    length v <= maxLength ->
    step st {| messages := messages st; inputValue := v;
               isLoading := isLoading st |}
| step_send st w :
    step st (fst (handleSendMessage w st)).

Inductive reachable : AppState -> Prop :=
| reach_init t0 : reachable (initialState t0)
| reach_step st st' : reachable st -> step st st' -> reachable st'.

(** *** The kinds of bot reply, told by their text *)

Definition analysisReply (t : jsstring) : Prop :=
  exists article,
    t = articleAnalysisText article \/ t = latestNewsText article
    \/ exists userText, t = trendAnalysisText userText article.

Definition noResultsReply (t : jsstring) : Prop := t = noResultsText.

Definition connectionErrorReply (t : jsstring) : Prop := t = errorText.

Definition chitChatReply (t : jsstring) : Prop := In t generalResponses.

(** *** The words of the routing rule *)

Definition newsKeywords : list jsstring :=
  map lit [ "news"; "article"; "analyze"; "trend"; "trends"; "recent";
            "latest"; "development"; "developments"; "progress";
            "evolution" ]%string.

(** [k] occurs in [s]. *)
Definition contains (s k : jsstring) : Prop :=
  exists before after, s = before ++ k ++ after.

(** The first line of [s], and what follows its first line feed. *)
Fixpoint firstLine (s : jsstring) : jsstring :=
  match s with
  | [] => []
  | c :: r => if (c =? LF)%N then [] else c :: firstLine r
  end.

Fixpoint afterFirstLine (s : jsstring) : jsstring :=
  match s with
  | [] => []
  | c :: r => if (c =? LF)%N then r else afterFirstLine r
  end.

(** The body of the request for a pasted article. *)
Definition processBodyOf (t : jsstring) : ProcessBody.t :=
  {| ProcessBody.title :=
       if truthy (firstLine t) then firstLine t
       else lit "User Provided Article";
     ProcessBody.content :=
       if truthy (trim (afterFirstLine t)) then trim (afterFirstLine t)
       else t;
     ProcessBody.source := lit "User Input";
     ProcessBody.include_analysis := true |}.

(** The body of the request for a news query. *)
Definition fetchBodyOf (t : jsstring) : FetchBody.t :=
  {| FetchBody.query := t;
     FetchBody.page_size := 5;
     FetchBody.include_analysis := true |}.

(** The size cap: on the input, and on every message of the user. *)
Definition capped (st : AppState) : Prop :=
  length (inputValue st) <= maxLength
  /\ forall m, In m (messages st) -> sender m = user ->
               length (text m) <= maxLength.

End App.

(** ** A host to run the model on examples

    Numbers are rationals and arithmetic is exact, lower-casing covers
    the letters A to Z, and a date is shown as the text it was given.
    A rational stands for itself, not for the double nearest to it: the
    two print alike except next to a tie, where the binary value a
    JavaScript engine holds lies just below or above the decimal one
    (0.145 is shown here as 0.15, by an engine as 0.14).  The theorems
    do not depend on this host, only the examples are run on it. *)
Module ExampleHost.

Definition digits (n : N) : jsstring :=
  lit (DecimalString.NilZero.string_of_uint (N.to_uint n)).

Definition zero : N := 48%N.

(** [x.toFixed(d)]: the nearest multiple of [10^-d], ties upwards in
    magnitude, with exactly [d] decimals. *)
Definition toFixedQ (x : Q) (d : nat) : jsstring :=
  let a := Qabs x in
  let n := Z.to_N (Qfloor (a * inject_Z (10 ^ Z.of_nat d) + (1 # 2))%Q) in
  let ds := digits n in
  let ds := repeat zero (S d - length ds) ++ ds in
  let whole := firstn (length ds - d) ds in
  let frac := skipn (length ds - d) ds in
  (if Qle_bool 0 x then [] else lit "-")
    ++ whole ++ (match d with O => [] | _ => lit "." ++ frac end).

Definition lowerUnit (c : N) : N :=
  if ((65 <=? c) && (c <=? 90))%N then (c + 32)%N else c.

#[export] Instance host : Host := {|
  num := Q;
  num_truthy x := negb (Qeq_bool x 0);
  times100 x := (x * 100)%Q;
  toFixed := toFixedQ;
  toLowerCase := map lowerUnit;
  toLocaleDateString s := s
|}.

End ExampleHost.

(** ** The processing pipeline behind the two endpoints *)

(** Modelled from the spec: the data model of section 3 and the
    components of section 4.  The orchestrator, its stages and its cache
    live in the Flask back end ([backend/services/news_pipeline.py]),
    of which only the README is among the sources. *)
Module Pipeline.

Inductive Origin := primary | fallback | unavailable.

Record StageResult (T : Type) := {
  value : T;
  confidence : Q;
  origin : Origin
}.
Arguments value {T} _.
Arguments confidence {T} _.
Arguments origin {T} _.

Inductive SentimentValue := positive | negative | neutral.
Inductive CredibilityValue := authentic | fake | unknown.
Definition SummaryValue := list N.

Record RawArticle := {
  title : list N;
  content : list N;
  source : list N;
  publishedAt : option N;
  url : option (list N)
}.

Record ProcessedArticle := {
  article : RawArticle;
  sentiment : StageResult SentimentValue;
  credibility : StageResult CredibilityValue;
  summary : StageResult SummaryValue;
  processedAt : N;
  partial : bool
}.

Inductive StageName := Sentiment | Credibility | Summary.

#[global] Instance StageName_eq_dec : EqDecision StageName.
Proof. solve_decision. Defined.

#[global] Instance StageName_countable : Countable StageName.
Proof.
  refine (inj_countable'
    (fun s => match s with Sentiment => 0 | Credibility => 1 | Summary => 2 end)
    (fun n => match n with 0 => Sentiment | 1 => Credibility | _ => Summary end)
    _).
  intros []; reflexivity.
Defined.

(** What a cache entry can hold: the result of one of the three stages. *)
Inductive Cached :=
| OfSentiment (r : StageResult SentimentValue)
| OfCredibility (r : StageResult CredibilityValue)
| OfSummary (r : StageResult SummaryValue).

(** Modelled from the spec: the ResultCache of section 4.4 and the
    CacheEntry of section 3, a map from (stage name, content
    fingerprint) to a stage result and its expiry time.  [get] answers
    with the result only before the expiry; [put] stores the result with
    expiry [now + ttl], the last writer winning.  Eviction is lazy:
    an expired entry stays in the map and reads as a miss. *)
Module ResultCache.

Abbreviation t := (gmap (StageName * N) (Cached * N)).

Definition get (now : N) (c : t) (stage : StageName) (fingerprint : N)
  : option Cached :=
  match c !! (stage, fingerprint) with
  | Some (r, expiry) => if (now <? expiry)%N then Some r else None
  | None => None
  end.

Definition put (now : N) (c : t) (stage : StageName) (fingerprint : N)
  (r : Cached) (ttl : N) : t :=
  <[(stage, fingerprint) := (r, (now + ttl)%N)]> c.

End ResultCache.

(** What can be raised inside the orchestrator: by a stage, or by the
    check of the input at its boundary (section 7). *)
Inductive StageError :=
| ModelUnavailable
| RemoteFailure
| Unexpected
| MalformedInput.

(** *** Stage policies (sections 4.1 to 4.3) *)

(** Modelled from the spec: SentimentStage of section 4.1.  The primary
    classifier reports a class and its probability; the lexicon
    fall-back reports a class, with the confidence fixed at one half;
    the stage fails with [ModelUnavailable] when neither can run. *)
Module SentimentStage.
Definition classify
  (primaryModel : list N -> option (SentimentValue * Q))
  (lexicon : list N -> option SentimentValue)
  (text : list N) : StageError + StageResult SentimentValue :=
  match primaryModel text with
  | Some (v, p) => inr {| value := v; confidence := p; origin := primary |}
  | None =>
      match lexicon text with
      | Some v => inr {| value := v; confidence := 1 # 2; origin := fallback |}
      | None => inl ModelUnavailable
      end
  end.
End SentimentStage.

(** Modelled from the spec: CredibilityStage of section 4.2.  There is
    no fall-back tier: without a primary result the stage answers
    unknown, confidence 0, origin unavailable. *)
Module CredibilityStage.
Definition degraded : StageResult CredibilityValue :=
  {| value := unknown; confidence := 0; origin := unavailable |}.

Definition classify
  (primaryModel : list N -> option (CredibilityValue * Q))
  (text : list N) : StageError + StageResult CredibilityValue :=
  match primaryModel text with
  | Some (v, p) => inr {| value := v; confidence := p; origin := primary |}
  | None => inr degraded
  end.
End CredibilityStage.

(** Modelled from the spec: SummaryStage of section 4.3.  The remote
    summary is used when there is one, the extractive summary otherwise;
    when both fail the content is truncated to [maxLength]. *)
Module SummaryStage.
Definition truncated (text : list N) (maxLength : nat)
  : StageResult SummaryValue :=
  {| value := firstn maxLength text; confidence := 0; origin := unavailable |}.

Definition summarize
  (remote : list N -> nat -> option (SummaryValue * Q))
  (extractive : list N -> nat -> option (SummaryValue * Q))
  (text : list N) (maxLength : nat) : StageError + StageResult SummaryValue :=
  match remote text maxLength with
  | Some (v, p) => inr {| value := v; confidence := p; origin := primary |}
  | None =>
      match extractive text maxLength with
      | Some (v, p) => inr {| value := v; confidence := p; origin := fallback |}
      | None => inr (truncated text maxLength)
      end
  end.
End SummaryStage.

(** What the orchestrator is constructed with (section 9): the three
    stage contracts, and the hard cap on the size of an article's text
    (section 7). *)
Record Stages := {
  classifySentiment : list N -> StageError + StageResult SentimentValue;
  classifyCredibility : list N -> StageError + StageResult CredibilityValue;
  summarize : list N -> nat -> StageError + StageResult SummaryValue;
  sizeCap : nat
}.

(** *** The orchestrator's monad: a cache and a log of the stage logic
    that ran, with errors *)

Record State := {
  cache : ResultCache.t;
  ran : list (StageName * N)
}.

Definition M (A : Type) : Type := State -> (StageError + A) * State.

Definition ret {A : Type} (a : A) : M A := fun s => (inr a, s).

Definition bind {A B : Type} (m : M A) (k : A -> M B) : M B :=
  fun s =>
    match m s with
    | (inr a, s') => k a s'
    | (inl e, s') => (inl e, s')
    end.

Definition raise {A : Type} (e : StageError) : M A := fun s => (inl e, s).

(** [try m except e: h e] *)
Definition catch {A : Type} (m : M A) (h : StageError -> M A) : M A :=
  fun s =>
    match m s with
    | (inl e, s') => h e s'
    | r => r
    end.

Notation "'let*' x ':=' m 'in' k" := (bind m (fun x => k))
  (at level 10, x name, k at level 200).

(** *** PipelineOrchestrator (section 4.5) *)

Definition asSentiment (c : Cached) : option (StageResult SentimentValue) :=
  match c with OfSentiment r => Some r | _ => None end.

Definition asCredibility (c : Cached) : option (StageResult CredibilityValue) :=
  match c with OfCredibility r => Some r | _ => None end.

Definition asSummary (c : Cached) : option (StageResult SummaryValue) :=
  match c with OfSummary r => Some r | _ => None end.

Definition degradedSentiment : StageResult SentimentValue :=
  {| value := neutral; confidence := 0; origin := unavailable |}.

Definition isPrimary (o : Origin) : bool :=
  match o with primary => true | _ => false end.

Section Orchestrator.

Variable stages : Stages.
(** The content fingerprint: a stable hash of the normalized title and content. *)
Variable fingerprint : RawArticle -> N.
(** The clock reading of the request, and the configured TTL and summary bound. *)
Variable now : N.
Variable ttl : N.
Variable maxLength : nat.

(** Modelled from the spec: a stage consults the cache first (section 2);
    on a miss, which an expired entry is, the stage logic runs, is
    logged in [ran], and its result is stored under [ttl]. *)
Definition cached {T : Type} (name : StageName)
  (inj : StageResult T -> Cached) (proj : Cached -> option (StageResult T))
  (fp : N) (logic : unit -> StageError + StageResult T)
  : M (StageResult T) :=
  fun s =>
    match
      match ResultCache.get now (cache s) name fp with
      | Some c => proj c
      | None => None
      end
    with
    | Some r => (inr r, s)
    | None =>
        match logic tt with
        | inr r =>
            (inr r,
             {| cache := ResultCache.put now (cache s) name fp (inj r) ttl;
                ran := ran s ++ [(name, fp)] |})
        | inl e => (inl e, {| cache := cache s; ran := ran s ++ [(name, fp)] |})
        end
    end.

Definition runSentiment (a : RawArticle) : M (StageResult SentimentValue) :=
  cached Sentiment OfSentiment asSentiment (fingerprint a)
    (fun _ => classifySentiment stages (content a)).

Definition runCredibility (a : RawArticle) : M (StageResult CredibilityValue) :=
  cached Credibility OfCredibility asCredibility (fingerprint a)
    (fun _ => classifyCredibility stages (content a)).

Definition runSummary (a : RawArticle) : M (StageResult SummaryValue) :=
  cached Summary OfSummary asSummary (fingerprint a)
    (fun _ => summarize stages (content a) maxLength).

(** Modelled from the spec: the malformed input of section 7, an empty
    text or a text over the hard size cap. *)
Definition malformed (a : RawArticle) : bool :=
  match content a with
  | [] => true
  | _ => sizeCap stages <? length (content a)
  end.

(** Modelled from the spec: the three stages of section 4.5 with the
    propagation policy of section 7.  The stages run cache-checked; an
    error of a stage is caught and replaced by that stage's unavailable
    result (neutral, unknown, the truncated content), and [partial]
    tells whether some stage is not primary. *)
Definition runStages (a : RawArticle) : M ProcessedArticle :=
  let* s := catch (runSentiment a) (fun _ => ret degradedSentiment) in
  let* c := catch (runCredibility a) (fun _ => ret CredibilityStage.degraded) in
  let* u := catch (runSummary a)
              (fun _ => ret (SummaryStage.truncated (content a) maxLength)) in
  ret {| article := a;
         sentiment := s;
         credibility := c;
         summary := u;
         processedAt := now;
         partial := negb (isPrimary (origin s) && isPrimary (origin c)
                          && isPrimary (origin u)) |}.

(** Modelled from the spec: [processOne] of section 4.5.  A malformed
    article is rejected at the boundary, before any stage runs (sections
    7 and 8); any other article goes through the three stages. *)
Definition processOne (a : RawArticle) : M ProcessedArticle :=
  if malformed a then raise MalformedInput else runStages a.

(** Modelled from the spec: the record emitted for an article whose
    processing failed as a whole, all stages marked unavailable. *)
Definition allUnavailable (a : RawArticle) : ProcessedArticle :=
  {| article := a;
     sentiment := degradedSentiment;
     credibility := CredibilityStage.degraded;
     summary := SummaryStage.truncated (content a) maxLength;
     processedAt := now;
     partial := true |}.

(** One article of a batch: whatever the worker raises, a record comes out. *)
Definition protect (worker : RawArticle -> M ProcessedArticle) (a : RawArticle)
  (s : State) : ProcessedArticle * State :=
  match worker a s with
  | (inr r, s') => (r, s')
  | (inl _, s') => (allUnavailable a, s')
  end.

(** The task of index [i] completes: its record goes to slot [i]. *)
Definition complete (worker : RawArticle -> M ProcessedArticle)
  (articles : list RawArticle)
  (acc : list (option ProcessedArticle) * State) (i : nat)
  : list (option ProcessedArticle) * State :=
  match articles !! i with
  | Some a =>
      let '(r, s') := protect worker a (snd acc) in
      (<[i := Some r]> (fst acc), s')
  | None => acc
  end.

(** The join: the batch is returned once every slot is filled. *)
Fixpoint joinAll {A : Type} (slots : list (option A)) : option (list A) :=
  match slots with
  | [] => Some []
  | Some a :: r =>
      match joinAll r with
      | Some l => Some (a :: l)
      | None => None
      end
  | None :: _ => None
  end.

(** Modelled from the spec: [processBatch] of section 4.5 under the
    concurrency model of section 5.  Each article is a task that keeps
    its index; [schedule] is the order in which the tasks complete. *)
Definition processBatchWith (worker : RawArticle -> M ProcessedArticle)
  (schedule : list nat) (articles : list RawArticle) (s : State)
  : option (list ProcessedArticle) * State :=
  let '(slots, s') :=
    foldl (complete worker articles)
      (replicate (length articles) None, s) schedule in
  (joinAll slots, s').

(** What holds of the slots once the tasks in [done] have completed. *)
Definition filled (worker : RawArticle -> M ProcessedArticle)
  (articles : list RawArticle) (done : list nat)
  (acc : list (option ProcessedArticle) * State) : Prop :=
  length (fst acc) = length articles
  /\ forall i a, articles !! i = Some a -> In i done ->
       exists si, fst acc !! i = Some (Some (fst (protect worker a si))).

(** The state in which a task of a batch starts: the one left by the
    tasks that completed before it, the worker having run once on the
    article of each. *)
Definition stateAfter (worker : RawArticle -> M ProcessedArticle)
  (articles : list RawArticle) (order : list nat) (s : State) : State :=
  foldl (fun s j =>
           match articles !! j with
           | Some a => snd (worker a s)
           | None => s
           end) s order.

Definition processBatch := processBatchWith processOne.

(** Modelled from the spec: [fetchAndProcess] of section 4.5.  [fetch] is
    the article-source collaborator, which may return fewer than
    [pageSize] articles. *)
Definition fetchAndProcess (fetch : list N -> nat -> list RawArticle)
  (schedule : list nat) (query : list N) (pageSize : nat) (s : State)
  : option (list ProcessedArticle) * State :=
  processBatch schedule (fetch query pageSize) s.

End Orchestrator.

End Pipeline.

(** Modelled from the spec: the JSON of section 6 under the key
    [fake_news_detection], as the chat reads it: the credibility value
    under [prediction] and its confidence under [confidence]. *)
Module Wire.

Definition credibilityName (v : Pipeline.CredibilityValue) : jsstring :=
  match v with
  | Pipeline.authentic => lit "authentic"
  | Pipeline.fake => lit "fake"
  | Pipeline.unknown => lit "unknown"
  end.

Definition fakeNewsDetection
  (r : Pipeline.StageResult Pipeline.CredibilityValue)
  : @FakeNewsDetection.t ExampleHost.host :=
  @FakeNewsDetection.Build_t ExampleHost.host
    (Val (credibilityName (Pipeline.value r)))
    (Val (Pipeline.confidence r)).

End Wire.

(** ** Concrete inputs *)
Module Examples.

Import ExampleHost.

Definition half : UnitReal := {| ur := 1 # 2; ur_range := eq_refl |}.

(** The analysis service cannot be reached. *)
Definition offline : World :=
  {| api_process := fun _ => NetworkFailure;
     api_fetch_and_process := fun _ => NetworkFailure;
     random := half;
     userTime := 1000;
     botTime := 1800 |}.

(** An article whose credibility analysis is degraded. *)
Definition degradedArticle : Article.t :=
  {| Article.title := Val (lit "X");
     Article.summary := Val (lit "Stocks rally as tech earnings beat expectations");
     Article.source := Val (lit "User Input");
     Article.sentiment_analysis := Undefined;
     Article.fake_news_detection :=
       Val (Wire.fakeNewsDetection Pipeline.CredibilityStage.degraded);
     Article.original_article := Undefined |}.

(** The service answers every article with [a] and every query with no article. *)
Definition serving (a : Article.t) : World :=
  {| api_process := fun _ => Json a;
     api_fetch_and_process :=
       fun _ => Json {| FetchData.processed_articles := Val [] |};
     random := half;
     userTime := 1000;
     botTime := 1800 |}.

(** The state after the user typed [s] into the fresh application. *)
Definition typed (s : jsstring) : AppState :=
  {| messages := initialMessages 0; inputValue := s; isLoading := false |}.

(** A pasted article of 216 code units: a headline and ten sentences. *)
Definition pasted : jsstring :=
  lit "Tech earnings" ++ [LF]
    ++ List.concat (repeat (lit "Stocks rally today. ") 10) ++ lit "!!".

(** Stages for a run without models: the sentiment model is missing and
    the lexicon answers neutral, no credibility model is loaded, and the
    summary stage raises. *)
Definition stages : Pipeline.Stages :=
  {| Pipeline.classifySentiment :=
       Pipeline.SentimentStage.classify
         (fun _ => None) (fun _ => Some Pipeline.neutral);
     Pipeline.classifyCredibility :=
       Pipeline.CredibilityStage.classify (fun _ => None);
     Pipeline.summarize := fun _ _ => inl Pipeline.RemoteFailure;
     Pipeline.sizeCap := 4000 |}.

Definition fingerprint (a : Pipeline.RawArticle) : N :=
  fold_right N.add 0%N (Pipeline.title a ++ Pipeline.content a).

Definition raw (t c : string) : Pipeline.RawArticle :=
  {| Pipeline.title := lit t;
     Pipeline.content := lit c;
     Pipeline.source := lit "User Input";
     Pipeline.publishedAt := None;
     Pipeline.url := None |}.

Definition batch : list Pipeline.RawArticle :=
  [ raw "A" "Stocks rally as tech earnings beat expectations";
    raw "B" "";
    raw "C" "Rain expected over the weekend" ].

(** A worker that fails as a whole on an article without content. *)
Definition flaky (a : Pipeline.RawArticle)
  : Pipeline.M Pipeline.ProcessedArticle :=
  match Pipeline.content a with
  | [] => Pipeline.raise Pipeline.Unexpected
  | _ => Pipeline.processOne stages fingerprint 100 60 400 a
  end.

Definition fresh : Pipeline.State :=
  {| Pipeline.cache := ∅; Pipeline.ran := [] |}.

(** The source collaborator finds nothing. *)
Definition noMatch (query : list N) (pageSize : nat)
  : list Pipeline.RawArticle := [].

End Examples.

(** ** The rest of the front end *)

(** *** [handleKeyPress] ([App.js]) *)

Module KeyEvent.
Record t := { key : jsstring; shiftKey : bool }.
End KeyEvent.

Section Keys.
Context `{H : Host}.

(** [if (e.key === 'Enter' && !e.shiftKey) { e.preventDefault();
    handleSendMessage(); }]: whether the default action of the key was
    prevented, and what the send did. *)
Definition handleKeyPress (e : KeyEvent.t) (w : World) (st : AppState)
  : bool * (AppState * list Request) :=
  if strictEq (KeyEvent.key e) (lit "Enter") && negb (KeyEvent.shiftKey e)
  then (true, handleSendMessage w st)
  else (false, (st, [])).

(** *** What is on the screen while a send is under way

    [handleSendMessage] is asynchronous.  Its three updates before the
    [try] block are rendered while the request is pending: the user's
    message is there, the input is empty and [isLoading] is true.  At
    the end the bot message is appended and, in [finally], the flag is
    reset; React may render the two updates together or one after the
    other. *)
Definition pendingState (w : World) (st : AppState) : AppState :=
  {| messages := messages st ++ [userMessage w st];
     inputValue := [];
     isLoading := true |}.

Definition answeredState (w : World) (st : AppState) : AppState :=
  {| messages := messages (fst (handleSendMessage w st));
     inputValue := [];
     isLoading := true |}.

(** The states the application can render: those of [reachable], and
    the two states in between of every send that passes the guard.
    While [isLoading] is true the text field is disabled and a send
    returns at the guard, so nothing else can happen in between. *)
Inductive rendered : AppState -> Prop :=
| rendered_init t0 : rendered (initialState t0)
| rendered_change st v :
    rendered st ->
    isLoading st = false ->
    length v <= maxLength ->
    rendered {| messages := messages st; inputValue := v;
                isLoading := isLoading st |}
| rendered_pending st w :
    rendered st -> isDisabled st = false -> rendered (pendingState w st)
| rendered_answered st w :
    rendered st -> isDisabled st = false -> rendered (answeredState w st)
| rendered_done st w :
    rendered st -> rendered (fst (handleSendMessage w st)).

End Keys.

(** *** [MessagesWindow] and [MessageBubble] *)

Module Bubble.
Record t := { key : nat; message : Message; isLast : bool }.
End Bubble.

(** [messages.map((message, index) => <MessageBubble key={index}
    message={message} isLast={index === messages.length - 1} />)] *)
Definition MessagesWindow (messages : list Message) : list Bubble.t :=
  imap (fun index message =>
          {| Bubble.key := index;
             Bubble.message := message;
             Bubble.isLast :=
               (Z.of_nat index =? Z.of_nat (length messages) - 1)%Z |})
       messages.

(** [message.sender === 'user'] *)
Definition isUser (m : Message) : bool :=
  match sender m with user => true | bot => false end.

(** [`message-wrapper ${isUser ? 'user-wrapper' : 'bot-wrapper'}`] *)
Definition wrapperClassName (b : Bubble.t) : jsstring :=
  lit "message-wrapper "
    ++ (if isUser (Bubble.message b) then lit "user-wrapper"
        else lit "bot-wrapper").

(** [`message-bubble ${isUser ? 'user-bubble' : 'bot-bubble'}
      ${isLast ? 'last-message' : ''}`] *)
Definition bubbleClassName (b : Bubble.t) : jsstring :=
  lit "message-bubble "
    ++ (if isUser (Bubble.message b) then lit "user-bubble"
        else lit "bot-bubble")
    ++ lit " "
    ++ (if Bubble.isLast b then lit "last-message" else []).

(** The class tokens of a [className]: its pieces between spaces, the
    empty ones left out. *)
Fixpoint spaced (s : jsstring) : jsstring * list jsstring :=
  match s with
  | [] => ([], [])
  | c :: r =>
      let '(l, ls) := spaced r in
      if (c =? 32)%N then ([], if truthy l then l :: ls else ls)
      else (c :: l, ls)
  end.

Definition classList (s : jsstring) : list jsstring :=
  let '(l, ls) := spaced s in if truthy l then l :: ls else ls.

(** *** [GalaxyBackground] *)

Module Star.
Record t (float : Type) := {
  id : nat;
  size : float;
  opacity : float;
  left : float;
  animationDuration : float;
  animationDelay : float
}.
Arguments id {float} _.
Arguments size {float} _.
Arguments opacity {float} _.
Arguments left {float} _.
Arguments animationDuration {float} _.
Arguments animationDelay {float} _.
End Star.

Section Galaxy.

(** The host's numbers, with [Math.floor(Math.random() * n)],
    [Math.random() * a + b] and [Math.random() * a] as it computes them. *)
Variable float : Type.
Variable floorTimes : UnitReal -> nat -> nat.
Variable timesPlus : UnitReal -> Q -> Q -> float.
Variable times : UnitReal -> Q -> float.
(** The values of the successive calls of [Math.random()]. *)
Variable draw : nat -> UnitReal.

(** One turn of the loop for the index [i], the next draw being the [k]-th. *)
Definition star (i k : nat) : Star.t float :=
  {| Star.id := i;
     Star.size := timesPlus (draw k) 2 2;
     Star.opacity := timesPlus (draw (k + 1)) (7 # 10) (3 # 10);
     Star.left := times (draw (k + 2)) 100;
     Star.animationDuration := timesPlus (draw (k + 3)) 10 15;
     Star.animationDelay := times (draw (k + 4)) 10 |}.

(** [for (let i = 0; i < starCount; i++) { ...; newStars.push({...}) }],
    with [n] turns left. *)
Fixpoint pushStars (n i k : nat) (newStars : list (Star.t float))
  : list (Star.t float) :=
  match n with
  | O => newStars
  | S n' => pushStars n' (S i) (k + 5) (newStars ++ [star i k])
  end.

Definition starCount : nat := floorTimes (draw 0) 51 + 150.

Definition generateStars : list (Star.t float) :=
  pushStars starCount 0 1 [].

End Galaxy.

(** * Properties *)

Example lit_news : lit "news" = [110; 101; 119; 115]%N.
Proof. reflexivity. Qed.

Example lit_warning : lit "⚠️ ok" = [9888; 65039; 32; 111; 107]%N.
Proof. reflexivity. Qed.

Example lit_page : lit "📄" = [55357; 56516]%N.
Proof. reflexivity. Qed.

Example split_ex : split (lit "ab
cd
") = [lit "ab"; lit "cd"; []].
Proof. reflexivity. Qed.

Example toFixed_two : ExampleHost.toFixedQ (87 # 100) 2 = lit "0.87".
Proof. vm_compute. reflexivity. Qed.

Example toFixed_percent : ExampleHost.toFixedQ ((925 # 1000) * 100)%Q 0 = lit "93".
Proof. vm_compute. reflexivity. Qed.

(** ** Facts about strings *)

Lemma trimStart_blank (s : jsstring) : blank s = true -> trimStart s = [].
Proof.
  induction s as [|c r IH]; simpl; [reflexivity|].
  intros Hb. apply andb_true_iff in Hb as [Hc Hr]. rewrite Hc. auto.
Qed.

Lemma trimStart_nil (s : jsstring) : trimStart s = [] -> blank s = true.
Proof.
  induction s as [|c r IH]; simpl; [reflexivity|].
  destruct (isWhiteSpace c); [intros; simpl; auto | discriminate].
Qed.

Lemma trimStart_idem (s : jsstring) : trimStart (trimStart s) = trimStart s.
Proof.
  induction s as [|c r IH]; simpl; [reflexivity|].
  destruct (isWhiteSpace c) eqn:E; [exact IH | simpl; rewrite E; reflexivity].
Qed.

Lemma blank_rev (s : jsstring) : blank (rev s) = blank s.
Proof.
  unfold blank. induction s as [|c r IH]; simpl; [reflexivity|].
  rewrite forallb_app, IH. simpl. rewrite andb_true_r. apply andb_comm.
Qed.

Lemma trim_blank (s : jsstring) : blank s = true -> trim s = [].
Proof.
  intros Hb. unfold trim, trimEnd. rewrite (trimStart_blank s Hb). reflexivity.
Qed.

Lemma trim_nil (s : jsstring) : trim s = [] -> blank s = true.
Proof.
  unfold trim, trimEnd. intros Ht.
  apply (f_equal (@rev N)) in Ht. rewrite rev_involutive in Ht. simpl in Ht.
  apply trimStart_nil in Ht. rewrite blank_rev in Ht.
  apply trimStart_blank in Ht. rewrite trimStart_idem in Ht.
  apply trimStart_nil. exact Ht.
Qed.

Lemma length_trimStart (s : jsstring) : length (trimStart s) <= length s.
Proof.
  induction s as [|c r IH]; simpl; [lia|].
  destruct (isWhiteSpace c); simpl; lia.
Qed.

Lemma length_trim (s : jsstring) : length (trim s) <= length s.
Proof.
  unfold trim, trimEnd. rewrite length_rev.
  etransitivity; [apply length_trimStart|].
  rewrite length_rev. apply length_trimStart.
Qed.

Lemma truthy_false (s : jsstring) : truthy s = false <-> s = [].
Proof. destruct s; simpl; split; congruence. Qed.

Lemma trimStart_head (s : jsstring) (c : N) (r : jsstring) :
  trimStart s = c :: r -> isWhiteSpace c = false.
Proof.
  induction s as [|a s IH]; simpl; [discriminate|].
  destruct (isWhiteSpace a) eqn:E; [exact IH | intros [= <- _]; exact E].
Qed.

Lemma trimStart_snoc (s : jsstring) (c : N) :
  isWhiteSpace c = false -> exists p, trimStart (s ++ [c]) = p ++ [c].
Proof.
  intros Hc. induction s as [|a s [p IH]]; simpl.
  - rewrite Hc. exists []. reflexivity.
  - destruct (isWhiteSpace a); [exists p; exact IH | exists (a :: s); reflexivity].
Qed.

(** A trimmed string does not start with white space. *)
Lemma trim_head (s : jsstring) (c : N) (r : jsstring) :
  trim s = c :: r -> isWhiteSpace c = false.
Proof.
  unfold trim, trimEnd. destruct (trimStart s) as [|c0 x] eqn:E.
  - discriminate.
  - pose proof (trimStart_head s c0 x E) as Hc0. simpl rev.
    destruct (trimStart_snoc (rev x) c0 Hc0) as [p ->].
    rewrite rev_app_distr. simpl. intros [= <- _]. exact Hc0.
Qed.

(** So its first line is not empty, unless the string is. *)
Lemma trim_firstLine (s : jsstring) :
  truthy (trim s) = true -> truthy (firstLine (trim s)) = true.
Proof.
  destruct (trim s) as [|c r] eqn:E; [discriminate|]. intros _.
  pose proof (trim_head s c r E) as Hc. simpl.
  destruct (c =? LF)%N eqn:El; [|reflexivity].
  apply N.eqb_eq in El. subst c. discriminate.
Qed.

Example pasted_length : length Examples.pasted = 216.
Proof. reflexivity. Qed.

(** The reply to a pasted article whose credibility analysis is degraded. *)
Example article_analysis_text :
  articleAnalysisText Examples.degradedArticle =
    join [ lit "📄 **Article Analysis:**";
           [];
           lit "**X**";
           [];
           lit "Stocks rally as tech earnings beat expectations";
           [];
           lit "🔍 **Analysis Results:**";
           lit "- Sentiment: Neutral ";
           lit "- Credibility: High ✅ Likely authentic";
           lit "- Source: User Input";
           [];
           lit "*Analysis completed using AI-powered news intelligence.*" ].
Proof. vm_compute. reflexivity. Qed.

(** A verdict with confidences: two decimals, and a rounded percentage. *)
Example confident_lines :
  let s := @SentimentAnalysis.Build_t ExampleHost.host
             (Val (lit "positive")) (Val (87 # 100)) in
  let f := @FakeNewsDetection.Build_t ExampleHost.host
             (Val (lit "fake")) (Val (925 # 1000)) in
  sentimentLabel s ++ lit " " ++ sentimentConfidence s = lit "positive (0.87)"
  /\ credibilityScore f ++ lit " " ++ credibilityVerdict f
     = lit "93% ⚠️ Potential fake news detected".
Proof. split; vm_compute; reflexivity. Qed.

(** A news query while the service is down: the error reply, one request. *)
Example offline_news_query :
  handleSendMessage Examples.offline (Examples.typed (lit " latest news ")) =
    ({| messages :=
          initialMessages 0 ++
            [ {| text := lit "latest news"; sender := user; timestamp := 1000 |};
              {| text := errorText; sender := bot; timestamp := 1800 |} ];
        inputValue := [];
        isLoading := false |},
     [ post "http://localhost:8000/api/fetch-and-process"
         (OfFetch (fetchBodyOf (lit "latest news"))) ]).
Proof. vm_compute. reflexivity. Qed.

(** Sending while a request is pending does nothing. *)
Example send_while_loading :
  let st := {| messages := []; inputValue := lit "news"; isLoading := true |} in
  handleSendMessage Examples.offline st = (st, []).
Proof. reflexivity. Qed.

Lemma startsWith_spec (s k : jsstring) :
  startsWith s k = true <-> exists after, s = k ++ after.
Proof.
  revert s. induction k as [|a k IH]; intros s; simpl.
  - split; [intros _; exists s; reflexivity | intros _; destruct s; reflexivity].
  - destruct s as [|b s].
    + split; [discriminate | intros [r Hr]; discriminate].
    + simpl. rewrite andb_true_iff, N.eqb_eq, IH. split.
      * intros [-> [r ->]]. exists r. reflexivity.
      * intros [r Hr]. injection Hr as -> ->. split; [reflexivity | eauto].
Qed.

Lemma includes_spec (s k : jsstring) : includes s k = true <-> contains s k.
Proof.
  unfold contains. induction s as [|c s IH].
  - cbn [includes]. rewrite orb_false_r, startsWith_spec. split.
    + intros [r Hr]. exists [], r. exact Hr.
    + intros [p [r Hr]]. destruct p; [exists r; exact Hr | discriminate].
  - cbn [includes]. rewrite orb_true_iff, startsWith_spec, IH. split.
    + intros [[r Hr] | [p [r Hr]]].
      * exists [], r. exact Hr.
      * exists (c :: p), r. rewrite Hr. reflexivity.
    + intros [p [r Hr]]. destruct p as [|c' p].
      * left. exists r. exact Hr.
      * right. injection Hr as _ Hr. exists p, r. exact Hr.
Qed.

Lemma split_head_tail (s : jsstring) :
  split s = firstLine s :: skipn 1 (split s)
  /\ join (skipn 1 (split s)) = afterFirstLine s.
Proof.
  unfold split. induction s as [|c r [IH1 IH2]]; simpl; [auto|].
  destruct (splitLines r) as [l ls] eqn:E. simpl in *.
  injection IH1 as IH1. destruct (c =? LF)%N.
  - simpl. split; [reflexivity|]. clear IH2 IH1.
    revert l ls E. induction r as [|d r IHr]; intros l ls E; simpl in *.
    + injection E as <- <-. reflexivity.
    + destruct (splitLines r) as [l' ls'] eqn:E'.
      destruct (d =? LF)%N eqn:Ed.
      * injection E as <- <-. apply N.eqb_eq in Ed. subst d.
        rewrite <- (IHr l' ls' eq_refl). reflexivity.
      * injection E as <- <-. specialize (IHr l' ls' eq_refl).
        destruct ls'; simpl in *; rewrite <- IHr; reflexivity.
  - simpl. split; [rewrite IH1; reflexivity | exact IH2].
Qed.

Lemma randomIndex_lt (r : UnitReal) : randomIndex r < length generalResponses.
Proof.
  unfold randomIndex. destruct r as [q Hq]. cbn [ur].
  change (Z.of_nat (length generalResponses)) with 4%Z.
  change (length generalResponses) with (Z.to_nat 4).
  apply andb_true_iff in Hq as [H0 H1].
  apply Qle_bool_iff in H0. apply negb_true_iff in H1.
  assert (Hlt : (q < 1)%Q).
  { apply Qnot_le_lt. intros Hle. apply Qle_bool_iff in Hle. congruence. }
  assert (Hlo : (0 <= Qfloor (q * inject_Z 4))%Z).
  { change 0%Z with (Qfloor (inject_Z 0)). rewrite <- (Qfloor_Z 0) at 1.
    apply Qfloor_resp_le. change (inject_Z 0) with 0%Q.
    apply Qmult_le_0_compat; [exact H0 | discriminate]. }
  assert (Hhi : (Qfloor (q * inject_Z 4) < 4)%Z).
  { rewrite Zlt_Qlt. eapply Qle_lt_trans; [apply Qfloor_le|].
    change (inject_Z 4) with (1 * inject_Z 4)%Q at 2.
    apply Qmult_lt_compat_r; [reflexivity | exact Hlt]. }
  apply Z2Nat.inj_lt; lia.
Qed.

(** ** The chat handler *)

Section AppFacts.
Context `{H : Host}.

Lemma handleSendMessage_rejected (w : World) (st : AppState) :
  isDisabled st = true -> handleSendMessage w st = (st, []).
Proof. unfold isDisabled, handleSendMessage. intros ->. reflexivity. Qed.

Lemma handleSendMessage_accepted (w : World) (st : AppState) :
  truthy (trim (inputValue st)) = true ->
  isLoading st = false ->
  handleSendMessage w st =
    ({| messages := (messages st ++ [userMessage w st])
                      ++ [botMessage w (fst (respond w (trim (inputValue st))))];
        inputValue := [];
        isLoading := false |},
     snd (respond w (trim (inputValue st)))).
Proof.
  intros Ht Hl. unfold handleSendMessage. rewrite Ht, Hl. simpl.
  destruct (respond w (trim (inputValue st))) as [o rs]. reflexivity.
Qed.

Lemma capped_send (w : World) (st : AppState) :
  capped st -> capped (fst (handleSendMessage w st)).
Proof.
  intros [Hi Hm]. unfold handleSendMessage.
  destruct (negb (truthy (trim (inputValue st))) || isLoading st);
    [split; assumption|].
  destruct (respond w (text (userMessage w st))) as [o rs]. simpl.
  split; [simpl; unfold maxLength; lia|]. simpl.
  intros m Hin Hs. rewrite !in_app_iff in Hin. simpl in Hin.
  destruct Hin as [[Hin | [<- | []]] | [<- | []]].
  - auto.
  - simpl. etransitivity; [apply length_trim | exact Hi].
  - destruct o; discriminate.
Qed.

Lemma reachable_capped (st : AppState) : reachable st -> capped st.
Proof.
  induction 1 as [t0 | st st' _ IH Hstep].
  - split; simpl; [unfold maxLength; lia|].
    intros m [<- | []]. discriminate.
  - destruct Hstep as [st v _ Hv | st w].
    + destruct IH as [_ Hm]. split; [exact Hv | exact Hm].
    + apply capped_send, IH.
Qed.

(** C3. A blank input (empty, or white space only) is turned away at
    the first line of [handleSendMessage]: the state is returned as it
    was, so no message is appended, and no request is issued.  And
    since the text field carries [maxLength = 500], in every state the
    user can reach the input, and with it every user message of the
    conversation after a send, has at most 500 code units. *)
Theorem blank_input_rejected_and_size_capped (w : World) (st : AppState) :
  (blank (inputValue st) = true -> handleSendMessage w st = (st, []))
  /\ (reachable st ->
      length (inputValue st) <= 500
      /\ forall m, In m (messages (fst (handleSendMessage w st))) ->
                   sender m = user -> length (text m) <= 500).
Proof.
  split.
  - intros Hb. apply handleSendMessage_rejected. unfold isDisabled.
    rewrite (trim_blank _ Hb). reflexivity.
  - intros Hr. split.
    + apply (reachable_capped st Hr).
    + apply (capped_send w st (reachable_capped st Hr)).
Qed.

End AppFacts.

Lemma reachable_typed (s : jsstring) :
  length s <= 500 -> reachable (H := ExampleHost.host) (Examples.typed s).
Proof.
  intros Hs.
  apply (reach_step (initialState 0) (Examples.typed s)); [constructor|].
  apply (step_change (initialState 0) s); [reflexivity | exact Hs].
Defined.

Lemma blank_input_rejected_and_size_capped_witness :
  let st := Examples.typed (lit "   ") in
  handleSendMessage Examples.offline st = (st, [])
  /\ length (inputValue st) <= 500
  /\ forall m, In m (messages (fst (handleSendMessage Examples.offline st))) ->
               sender m = user -> length (text m) <= 500.
Proof.
  intros st.
  destruct (blank_input_rejected_and_size_capped Examples.offline st)
    as [Hreject Hcap].
  split; [apply Hreject; reflexivity|].
  apply Hcap. apply reachable_typed. vm_compute. lia.
Defined.

Lemma hd_app_l (x y : jsstring) : x <> [] -> hd 0%N (x ++ y) = hd 0%N x.
Proof. destruct x; [congruence | reflexivity]. Qed.

Lemma hd_join (x y : jsstring) (l : list jsstring) :
  x <> [] -> hd 0%N (join (x :: y :: l)) = hd 0%N x.
Proof. intros Hx. cbn [join]. apply hd_app_l, Hx. Qed.

Section Replies.
Context `{H : Host}.

(** Every analysis reply opens with the high surrogate of its emoji. *)
Lemma analysisReply_head (t : jsstring) :
  analysisReply t -> hd 0%N t = 55357%N.
Proof.
  intros [a [-> | [-> | [q ->]]]].
  - unfold articleAnalysisText. rewrite hd_join; [reflexivity | discriminate].
  - unfold latestNewsText. rewrite hd_join; [reflexivity | discriminate].
  - unfold trendAnalysisText. rewrite hd_join.
    + rewrite hd_app_l; [reflexivity | discriminate].
    + intros E. apply (f_equal (@length N)) in E.
      rewrite length_app in E. simpl in E. lia.
Qed.

(** How the [try] block ends is one of four kinds of reply. *)
Lemma respond_kinds (w : World) (t : jsstring) :
  let b := botMessage w (fst (respond w t)) in
  sender b = bot
  /\ (analysisReply (text b) \/ noResultsReply (text b)
      \/ connectionErrorReply (text b) \/ chitChatReply (text b)).
Proof.
  unfold respond.
  destruct (isArticleContent t).
  - cbn [fst]. destruct (api_process w _) as [| | |a]; simpl;
      (split; [reflexivity|]); try (right; right; left; reflexivity).
    left. exists a. left. reflexivity.
  - destruct (isNewsQuery t).
    + cbn [fst]. destruct (api_fetch_and_process w _) as [| | |d]; simpl;
        try (split; [reflexivity | right; right; left; reflexivity]).
      destruct (FetchData.processed_articles d) as [| |[|a l]]; simpl;
        try (split; [reflexivity | right; left; reflexivity]).
      split; [reflexivity|]. left. exists a.
      destruct (isTrendQuery t); [right; right; exists t | right; left];
        reflexivity.
    + simpl. split; [reflexivity|]. right; right; right.
      apply nth_In, randomIndex_lt.
Qed.

(** C10. An invocation that passes the guard (a non-blank input, not
    loading) leaves the earlier messages as they were and appends
    exactly two: the user's message, then one bot message, which is an
    analysis reply, the no-results reply, the connection-error reply or
    a chit-chat reply; the input is cleared and the loading flag is
    false at the end, on the error path as on the others. *)
Theorem send_appends_user_then_one_bot_message (w : World) (st : AppState) :
  truthy (trim (inputValue st)) = true ->
  isLoading st = false ->
  exists b,
    fst (handleSendMessage w st) =
      {| messages := messages st ++ [userMessage w st; b];
         inputValue := [];
         isLoading := false |}
    /\ sender b = bot
    /\ (analysisReply (text b) \/ noResultsReply (text b)
        \/ connectionErrorReply (text b) \/ chitChatReply (text b)).
Proof.
  intros Ht Hl. rewrite (handleSendMessage_accepted w st Ht Hl). cbn [fst].
  exists (botMessage w (fst (respond w (trim (inputValue st))))).
  split; [rewrite <- app_assoc; reflexivity|].
  apply respond_kinds.
Qed.

End Replies.

Lemma send_appends_user_then_one_bot_message_witness :
  let st := Examples.typed (lit "hello") in
  exists b,
    fst (handleSendMessage Examples.offline st) =
      {| messages := messages st ++ [userMessage Examples.offline st; b];
         inputValue := [];
         isLoading := false |}
    /\ sender b = bot
    /\ (analysisReply (H := ExampleHost.host) (text b)
        \/ noResultsReply (text b)
        \/ connectionErrorReply (text b) \/ chitChatReply (text b)).
Proof.
  intros st.
  apply (send_appends_user_then_one_bot_message Examples.offline st);
    reflexivity.
Defined.

(** C10, as it is worded: the bot message after "hello" is a chit-chat
    reply, none of the three kinds the wording lists. *)
Lemma chit_chat_reply_is_not_of_the_three_kinds :
  let st := Examples.typed (lit "hello") in
  ~ exists b,
      fst (handleSendMessage Examples.offline st) =
        {| messages := messages st ++ [userMessage Examples.offline st; b];
           inputValue := [];
           isLoading := false |}
      /\ sender b = bot
      /\ (analysisReply (H := ExampleHost.host) (text b)
          \/ noResultsReply (text b) \/ connectionErrorReply (text b)).
Proof.
  intros st [b [Heq [_ Hkind]]].
  assert (Hb : text b = nth 2 generalResponses []).
  { apply (f_equal messages) in Heq. cbn [messages] in Heq.
    unfold st in Heq.
    rewrite (handleSendMessage_accepted Examples.offline
               (Examples.typed (lit "hello")) eq_refl eq_refl) in Heq.
    cbn [fst messages] in Heq. rewrite <- app_assoc in Heq.
    apply app_inv_head in Heq. injection Heq as <-. reflexivity. }
  destruct Hkind as [Ha | [Hn | He]].
  - apply analysisReply_head in Ha. rewrite Hb in Ha. vm_compute in Ha.
    discriminate.
  - red in Hn. rewrite Hb in Hn. vm_compute in Hn. discriminate.
  - red in He. rewrite Hb in He. vm_compute in He. discriminate.
Qed.

Section Routing.
Context `{H : Host}.

Lemma isNewsQuery_spec (t : jsstring) :
  isNewsQuery t = true <->
  exists k, In k newsKeywords /\ contains (toLowerCase t) k.
Proof.
  unfold isNewsQuery. rewrite !orb_true_iff, !includes_spec. split.
  - unfold newsKeywords. cbn [map In].
    intros Hk. repeat destruct Hk as [Hk | Hk];
      (eexists; split; [|exact Hk]); tauto.
  - intros [k [Hin Hk]]. unfold newsKeywords in Hin. cbn [map In] in Hin.
    repeat (destruct Hin as [<- | Hin]; [tauto|]). destruct Hin.
Qed.

(** C8. A submitted message of more than 200 code units is taken for a
    pasted article: exactly one request is issued, a POST to
    [/api/process], whose title is the first line of the message (or
    'User Provided Article' for an empty one), whose content is what
    follows the first line, trimmed (or the whole message when nothing
    is left), whose source is 'User Input' and whose [include_analysis]
    is true. *)
Theorem long_message_posted_as_article (w : World) (st : AppState) :
  truthy (trim (inputValue st)) = true ->
  isLoading st = false ->
  200 < length (trim (inputValue st)) ->
  snd (handleSendMessage w st) =
    [ {| url := lit "http://localhost:8000/api/process";
         method := lit "POST";
         headers := [(lit "Content-Type", lit "application/json")];
         body := OfProcess (processBodyOf (trim (inputValue st))) |} ].
Proof.
  intros Ht Hl Hlen. rewrite (handleSendMessage_accepted w st Ht Hl).
  cbn [snd]. unfold respond, isArticleContent.
  apply Nat.ltb_lt in Hlen. rewrite Hlen. cbn [snd]. unfold post.
  destruct (split_head_tail (trim (inputValue st))) as [Hhd Htl].
  rewrite Htl. rewrite Hhd at 1. reflexivity.
Qed.

(** The submitted text is trimmed, so its first line is never empty and
    the default title is not used. *)
Lemma pasted_title_is_first_line (st : AppState) :
  truthy (trim (inputValue st)) = true ->
  ProcessBody.title (processBodyOf (trim (inputValue st)))
    = firstLine (trim (inputValue st)).
Proof.
  intros Ht. unfold processBodyOf. cbn [ProcessBody.title].
  rewrite (trim_firstLine _ Ht). reflexivity.
Qed.

(** C9. For a submitted message of at most 200 code units, a POST to
    [/api/fetch-and-process] with the whole message as query, page size
    5 and [include_analysis] true is issued exactly when the lower-cased
    message contains one of the eleven keywords; otherwise nothing is
    requested and the reply is one of the chit-chat responses. *)
Theorem short_message_routed_by_keyword (w : World) (st : AppState) :
  truthy (trim (inputValue st)) = true ->
  isLoading st = false ->
  length (trim (inputValue st)) <= 200 ->
  let t := trim (inputValue st) in
  let hasKeyword := exists k, In k newsKeywords /\ contains (toLowerCase t) k in
  (hasKeyword <->
   snd (handleSendMessage w st) =
     [ {| url := lit "http://localhost:8000/api/fetch-and-process";
          method := lit "POST";
          headers := [(lit "Content-Type", lit "application/json")];
          body := OfFetch (fetchBodyOf t) |} ])
  /\ (~ hasKeyword ->
      snd (handleSendMessage w st) = []
      /\ exists b,
           messages (fst (handleSendMessage w st)) =
             messages st ++ [userMessage w st; b]
           /\ sender b = bot /\ chitChatReply (text b)).
Proof.
  intros Ht Hl Hlen t hasKeyword.
  rewrite (handleSendMessage_accepted w st Ht Hl). cbn [fst snd messages].
  fold t. unfold respond, isArticleContent.
  assert (Hshort : (200 <? length t) = false) by (apply Nat.ltb_ge; exact Hlen).
  rewrite Hshort. unfold hasKeyword. rewrite <- isNewsQuery_spec.
  destruct (isNewsQuery t); cbn [fst snd].
  - split; [split; reflexivity | intros Hn; exfalso; apply Hn; reflexivity].
  - split; [split; discriminate|]. intros _. split; [reflexivity|].
    eexists. split; [rewrite <- app_assoc; reflexivity|].
    split; [reflexivity|]. apply nth_In, randomIndex_lt.
Qed.

(** C7. For an input that is neither an article nor a news query the
    reply is read off the fixed table [generalResponses] at the index
    drawn for the run: the index is inside the table, so the reply is
    one of its four entries, nothing is requested, and two runs on the
    same input that draw the same index give the same reply. *)
Theorem chit_chat_reply_is_table_lookup (w w' : World) (st : AppState) :
  truthy (trim (inputValue st)) = true ->
  isLoading st = false ->
  isArticleContent (trim (inputValue st)) = false ->
  isNewsQuery (trim (inputValue st)) = false ->
  let reply := fun v => botMessage v (fst (respond v (trim (inputValue st)))) in
  fst (handleSendMessage w st) =
    {| messages := messages st ++ [userMessage w st; reply w];
       inputValue := [];
       isLoading := false |}
  /\ snd (handleSendMessage w st) = []
  /\ randomIndex (random w) < length generalResponses
  /\ generalResponses !! randomIndex (random w) = Some (text (reply w))
  /\ In (text (reply w)) generalResponses
  /\ (randomIndex (random w) = randomIndex (random w') ->
      text (reply w) = text (reply w')).
Proof.
  intros Ht Hl Ha Hn reply.
  rewrite (handleSendMessage_accepted w st Ht Hl). cbn [fst snd].
  unfold reply, respond. rewrite Ha, Hn. cbn [fst snd botMessage text].
  pose proof (randomIndex_lt (random w)) as Hi.
  repeat split.
  - rewrite <- app_assoc. reflexivity.
  - exact Hi.
  - unfold randomResponse.
    destruct (nth_lookup_or_length generalResponses (randomIndex (random w)) [])
      as [Hs | Hge]; [exact Hs | lia].
  - apply nth_In, Hi.
  - unfold randomResponse. intros ->. reflexivity.
Qed.

(** The chat, on an answer without articles, replies that it found none. *)
Lemma empty_result_reply (w : World) (st : AppState) (d : FetchData.t) :
  truthy (trim (inputValue st)) = true ->
  isLoading st = false ->
  isArticleContent (trim (inputValue st)) = false ->
  isNewsQuery (trim (inputValue st)) = true ->
  api_fetch_and_process w (fetchBodyOf (trim (inputValue st))) = Json d ->
  (FetchData.processed_articles d = Val []
   \/ FetchData.processed_articles d = Null
   \/ FetchData.processed_articles d = Undefined) ->
  fst (handleSendMessage w st) =
    {| messages :=
         messages st ++
           [userMessage w st;
            {| text := noResultsText; sender := bot; timestamp := botTime w |}];
       inputValue := [];
       isLoading := false |}.
Proof.
  intros Ht Hl Ha Hn Hd He.
  rewrite (handleSendMessage_accepted w st Ht Hl). cbn [fst].
  unfold respond. rewrite Ha, Hn. unfold fetchBodyOf in Hd. rewrite Hd.
  rewrite <- app_assoc.
  destruct He as [-> | [-> | ->]]; reflexivity.
Qed.

End Routing.

(** ** The pipeline *)

Module PipelineFacts.
Import Pipeline.

Lemma get_Some (now : N) (c : ResultCache.t) (stage : StageName) (fp : N)
  (r : Cached) :
  ResultCache.get now c stage fp = Some r <->
  exists expiry, c !! (stage, fp) = Some (r, expiry) /\ (now < expiry)%N.
Proof.
  unfold ResultCache.get. destruct (c !! (stage, fp)) as [[r' e]|].
  - destruct (now <? e)%N eqn:E.
    + apply N.ltb_lt in E. split.
      * intros [= ->]. exists e. auto.
      * intros [e' [[= -> ->] _]]. reflexivity.
    + apply N.ltb_ge in E. split; [discriminate|].
      intros [e' [[= -> ->] Hlt]]. lia.
  - split; [discriminate | intros [e [Hn _]]; discriminate].
Qed.

Lemma get_put_eq (t0 now : N) (c : ResultCache.t) (stage : StageName)
  (fp : N) (r : Cached) (ttl : N) :
  ResultCache.get now (ResultCache.put t0 c stage fp r ttl) stage fp =
  if (now <? t0 + ttl)%N then Some r else None.
Proof.
  unfold ResultCache.get, ResultCache.put. rewrite lookup_insert_eq.
  reflexivity.
Qed.

Lemma get_put_ne (t0 now : N) (c : ResultCache.t) (stage stage' : StageName)
  (fp fp' : N) (r : Cached) (ttl : N) :
  (stage, fp) <> (stage', fp') ->
  ResultCache.get now (ResultCache.put t0 c stage fp r ttl) stage' fp' =
  ResultCache.get now c stage' fp'.
Proof.
  intros Hne. unfold ResultCache.get, ResultCache.put.
  rewrite lookup_insert_ne by exact Hne. reflexivity.
Qed.

Lemma get_expired (now : N) (c : ResultCache.t) (stage : StageName) (fp : N)
  (r : Cached) (expiry : N) :
  c !! (stage, fp) = Some (r, expiry) -> (expiry <= now)%N ->
  ResultCache.get now c stage fp = None.
Proof.
  intros Hc He. unfold ResultCache.get. rewrite Hc.
  destruct (now <? expiry)%N eqn:E; [apply N.ltb_lt in E; lia | reflexivity].
Qed.

Lemma get_delete (now : N) (c : ResultCache.t) (stage : StageName) (fp : N) :
  ResultCache.get now (delete (stage, fp) c) stage fp = None.
Proof. unfold ResultCache.get. rewrite lookup_delete_eq. reflexivity. Qed.

(** On a miss the stage logic runs, is logged, and decides the answer. *)
Lemma cached_miss {T : Type} (now ttl : N) (name : StageName)
  (inj : StageResult T -> Cached) (proj : Cached -> option (StageResult T))
  (fp : N) (logic : unit -> StageError + StageResult T) (s : State) :
  ResultCache.get now (cache s) name fp = None ->
  cached now ttl name inj proj fp logic s =
    match logic tt with
    | inr r =>
        (inr r,
         {| cache := ResultCache.put now (cache s) name fp (inj r) ttl;
            ran := ran s ++ [(name, fp)] |})
    | inl e => (inl e, {| cache := cache s; ran := ran s ++ [(name, fp)] |})
    end.
Proof. intros Hg. unfold cached. rewrite Hg. reflexivity. Qed.

(** C5. A cached result is handed out only before its expiry: a hit at
    time [now] comes from an entry whose expiry is later than [now], and
    a result stored at [t0] under [ttl] is read back exactly at the
    times before [t0 + ttl].  From the expiry on, the entry reads like
    no entry at all, and a cache-checked stage run at such a time runs
    the stage logic again (it is logged in [ran]) and answers with what
    the logic returns, not with the stale value. *)
Theorem cache_hit_only_before_expiry {T : Type}
  (t0 now ttl ttl' : N) (c : ResultCache.t) (name : StageName) (fp : N)
  (stale : Cached) (inj : StageResult T -> Cached)
  (proj : Cached -> option (StageResult T))
  (logic : unit -> StageError + StageResult T) (log : list (StageName * N)) :
  let c1 := ResultCache.put t0 c name fp stale ttl in
  (forall r, ResultCache.get now c name fp = Some r ->
             exists expiry, c !! (name, fp) = Some (r, expiry)
                            /\ (now < expiry)%N)
  /\ (ResultCache.get now c1 name fp = Some stale <-> (now < t0 + ttl)%N)
  /\ ((t0 + ttl <= now)%N ->
      ResultCache.get now c1 name fp = None
      /\ ResultCache.get now c1 name fp
         = ResultCache.get now (delete (name, fp) c1) name fp
      /\ fst (cached now ttl' name inj proj fp logic
                {| cache := c1; ran := log |}) = logic tt
      /\ ran (snd (cached now ttl' name inj proj fp logic
                     {| cache := c1; ran := log |})) = log ++ [(name, fp)]).
Proof.
  intros c1. split; [|split].
  - intros r Hr. apply get_Some, Hr.
  - unfold c1. rewrite get_put_eq.
    destruct (now <? t0 + ttl)%N eqn:E.
    + apply N.ltb_lt in E. tauto.
    + apply N.ltb_ge in E. split; [discriminate | lia].
  - intros Hexp.
    assert (Hmiss : ResultCache.get now c1 name fp = None).
    { unfold c1. rewrite get_put_eq.
      destruct (now <? t0 + ttl)%N eqn:E;
        [apply N.ltb_lt in E; lia | reflexivity]. }
    split; [exact Hmiss|]. split; [rewrite get_delete; exact Hmiss|].
    rewrite cached_miss by exact Hmiss.
    destruct (logic tt); split; reflexivity.
Qed.

Section ProcessOne.

Variable stages : Stages.
Variable fingerprint : RawArticle -> N.
Variables now ttl : N.
Variable maxLength : nat.

(** A guarded stage: the state afterwards differs from the one before
    at most under the stage's own key; on a miss the answer is the one
    of the stage logic, or the given degraded result when it raised. *)
Lemma guarded_stage {T : Type} (name : StageName)
  (inj : StageResult T -> Cached) (proj : Cached -> option (StageResult T))
  (fp : N) (logic : unit -> StageError + StageResult T)
  (degraded : StageResult T) (s : State) :
  exists r s',
    catch (cached now ttl name inj proj fp logic) (fun _ => ret degraded) s
      = (inr r, s')
    /\ (forall name' fp', (name, fp) <> (name', fp') ->
          ResultCache.get now (cache s') name' fp'
          = ResultCache.get now (cache s) name' fp')
    /\ (ResultCache.get now (cache s) name fp = None ->
        (forall e, logic tt = inl e -> r = degraded)
        /\ (forall r0, logic tt = inr r0 -> r = r0)).
Proof.
  unfold catch, cached.
  destruct (ResultCache.get now (cache s) name fp) as [c|] eqn:Hg.
  - destruct (proj c) as [r|].
    + exists r, s. repeat split; discriminate.
    + destruct (logic tt) as [e|r]; eexists _, _; (split; [reflexivity|]);
        cbn [cache]; (split; [|discriminate]).
      * reflexivity.
      * intros n' f' Hne. apply get_put_ne, Hne.
  - destruct (logic tt) as [e|r]; eexists _, _; (split; [reflexivity|]);
      cbn [cache];
      (split; [|intros _; split; [intros e' [=] | intros r' [=]];
                 subst; reflexivity]).
    + reflexivity.
    + intros n' f' Hne. apply get_put_ne, Hne.
Qed.

(** The three stages never end in an error, and each field is what its
    stage gave: on a miss, the result of the stage logic, or the
    stage's unavailable result when the logic raised. *)
Lemma runStages_returns (a : RawArticle) (s : State) :
  exists pa s',
    runStages stages fingerprint now ttl maxLength a s = (inr pa, s')
    /\ article pa = a
    /\ (ResultCache.get now (cache s) Sentiment (fingerprint a) = None ->
        (forall e, classifySentiment stages (content a) = inl e ->
           sentiment pa = degradedSentiment)
        /\ (forall r, classifySentiment stages (content a) = inr r ->
              sentiment pa = r))
    /\ (ResultCache.get now (cache s) Credibility (fingerprint a) = None ->
        (forall e, classifyCredibility stages (content a) = inl e ->
           credibility pa = CredibilityStage.degraded)
        /\ (forall r, classifyCredibility stages (content a) = inr r ->
              credibility pa = r))
    /\ (ResultCache.get now (cache s) Summary (fingerprint a) = None ->
        (forall e, summarize stages (content a) maxLength = inl e ->
           summary pa = SummaryStage.truncated (content a) maxLength)
        /\ (forall r, summarize stages (content a) maxLength = inr r ->
              summary pa = r)).
Proof.
  unfold runStages, bind, runSentiment, runCredibility, runSummary.
  destruct (guarded_stage Sentiment OfSentiment asSentiment (fingerprint a)
              (fun _ => classifySentiment stages (content a))
              degradedSentiment s) as [r1 [s1 [E1 [F1 D1]]]].
  rewrite E1.
  destruct (guarded_stage Credibility OfCredibility asCredibility
              (fingerprint a)
              (fun _ => classifyCredibility stages (content a))
              CredibilityStage.degraded s1) as [r2 [s2 [E2 [F2 D2]]]].
  rewrite E2.
  destruct (guarded_stage Summary OfSummary asSummary (fingerprint a)
              (fun _ => summarize stages (content a) maxLength)
              (SummaryStage.truncated (content a) maxLength) s2)
    as [r3 [s3 [E3 [_ D3]]]].
  rewrite E3. eexists _, _. split; [reflexivity|].
  cbn [article sentiment credibility summary].
  split; [reflexivity|]. split; [exact D1|]. split.
  - intros Hg. apply D2. rewrite F1 by discriminate. exact Hg.
  - intros Hg. apply D3. rewrite F2, F1 by discriminate. exact Hg.
Qed.

Lemma malformed_spec (a : RawArticle) :
  malformed stages a = true <->
  content a = [] \/ sizeCap stages < length (content a).
Proof.
  unfold malformed. destruct (content a) as [|c r] eqn:E.
  - split; auto.
  - rewrite Nat.ltb_lt. split; [auto | intros [[=] | Hlt]; exact Hlt].
Qed.

(** C1. An article whose text is empty or over the size cap is rejected
    at the boundary: [processOne] ends in [MalformedInput] and leaves
    the state as it was, no stage having run.  For every other article
    and from every state [processOne] returns a record, whatever the
    three stages do: it never ends in an error.  The record is the
    article's, and a stage whose logic ran (nothing fresh in the cache
    for it) shows as what the logic returned or, when it raised, as that
    stage's unavailable result: neutral, unknown, or the truncated
    content, each with confidence 0 and origin unavailable. *)
Theorem processOne_total_on_well_formed (a : RawArticle) (s : State) :
  (content a = [] \/ sizeCap stages < length (content a) ->
   processOne stages fingerprint now ttl maxLength a s
     = (inl MalformedInput, s))
  /\ (content a <> [] -> length (content a) <= sizeCap stages ->
      exists pa s',
        processOne stages fingerprint now ttl maxLength a s = (inr pa, s')
        /\ article pa = a
        /\ (ResultCache.get now (cache s) Sentiment (fingerprint a) = None ->
            (forall e, classifySentiment stages (content a) = inl e ->
               sentiment pa = degradedSentiment
               /\ origin (sentiment pa) = unavailable)
            /\ (forall r, classifySentiment stages (content a) = inr r ->
                  sentiment pa = r))
        /\ (ResultCache.get now (cache s) Credibility (fingerprint a) = None ->
            (forall e, classifyCredibility stages (content a) = inl e ->
               credibility pa = CredibilityStage.degraded
               /\ origin (credibility pa) = unavailable)
            /\ (forall r, classifyCredibility stages (content a) = inr r ->
                  credibility pa = r))
        /\ (ResultCache.get now (cache s) Summary (fingerprint a) = None ->
            (forall e, summarize stages (content a) maxLength = inl e ->
               summary pa = SummaryStage.truncated (content a) maxLength
               /\ origin (summary pa) = unavailable)
            /\ (forall r, summarize stages (content a) maxLength = inr r ->
                  summary pa = r))).
Proof.
  unfold processOne. split.
  - intros Hm. apply malformed_spec in Hm. rewrite Hm. reflexivity.
  - intros Hne Hle.
    assert (Hok : malformed stages a = false).
    { destruct (malformed stages a) eqn:E; [|reflexivity].
      apply malformed_spec in E as [E | E]; [contradiction | lia]. }
    rewrite Hok.
    destruct (runStages_returns a s) as [pa [s' [Hrun [Ha [H1 [H2 H3]]]]]].
    exists pa, s'. split; [exact Hrun|]. split; [exact Ha|].
    split; [|split].
    + intros Hg. destruct (H1 Hg) as [Hd Hr]. split; [|exact Hr].
      intros e He. rewrite (Hd e He). split; reflexivity.
    + intros Hg. destruct (H2 Hg) as [Hd Hr]. split; [|exact Hr].
      intros e He. rewrite (Hd e He). split; reflexivity.
    + intros Hg. destruct (H3 Hg) as [Hd Hr]. split; [|exact Hr].
      intros e He. rewrite (Hd e He). split; reflexivity.
Qed.

Lemma processOne_article (a : RawArticle) (s : State)
  (r : ProcessedArticle) (s' : State) :
  processOne stages fingerprint now ttl maxLength a s = (inr r, s') ->
  article r = a.
Proof.
  unfold processOne. destruct (malformed stages a); [discriminate|].
  destruct (runStages_returns a s) as [pa [s1 [Hrun [Ha _]]]].
  rewrite Hrun. intros [= <- _]. exact Ha.
Qed.

End ProcessOne.

Lemma joinAll_filled {A : Type} (slots : list (option A)) :
  (forall i, i < length slots -> exists r, slots !! i = Some (Some r)) ->
  exists out,
    joinAll slots = Some out
    /\ length out = length slots
    /\ forall i r, slots !! i = Some (Some r) -> out !! i = Some r.
Proof.
  induction slots as [|o slots IH]; intros Hall.
  - exists []. repeat split. intros i r Hi. discriminate.
  - destruct (Hall 0) as [r0 Hr0]; [simpl; lia|]. simpl in Hr0.
    injection Hr0 as ->.
    destruct IH as [out [Hj [Hl Hget]]].
    { intros i Hi. apply (Hall (S i)). simpl. lia. }
    exists (r0 :: out). simpl. rewrite Hj. repeat split.
    + rewrite Hl. reflexivity.
    + intros [|i] r Hi; simpl in *; [congruence | auto].
Qed.

Section Batch.

Variable now : N.
Variable maxLength : nat.
Variable worker : RawArticle -> M ProcessedArticle.
Variable articles : list RawArticle.

Lemma complete_filled (done : list nat)
  (acc : list (option ProcessedArticle) * State) (j : nat) :
  filled now maxLength worker articles done acc ->
  filled now maxLength worker articles (done ++ [j]) (complete now maxLength worker articles acc j).
Proof.
  intros [Hlen Hdone]. unfold complete.
  destruct (articles !! j) as [aj|] eqn:Hj.
  - destruct (protect now maxLength worker aj (snd acc)) as [r s'] eqn:Hp.
    split; cbn [fst].
    + rewrite length_insert. exact Hlen.
    + intros i a Hi Hin. destruct (decide (i = j)) as [->|Hne].
      * exists (snd acc). rewrite list_lookup_insert_eq.
        -- rewrite Hj in Hi. injection Hi as <-. rewrite Hp. reflexivity.
        -- rewrite Hlen. apply lookup_lt_Some in Hj. exact Hj.
      * rewrite list_lookup_insert_ne by congruence.
        apply Hdone; [exact Hi|].
        apply in_app_iff in Hin as [Hin | [<- | []]]; [exact Hin | congruence].
  - split; [exact Hlen|]. intros i a Hi Hin.
    apply in_app_iff in Hin as [Hin | [<- | []]]; [auto | congruence].
Qed.

Lemma foldl_filled (schedule done : list nat)
  (acc : list (option ProcessedArticle) * State) :
  filled now maxLength worker articles done acc ->
  filled now maxLength worker articles (done ++ schedule)
    (foldl (complete now maxLength worker articles) acc schedule).
Proof.
  revert done acc. induction schedule as [|j schedule IH]; intros done acc Hf.
  - rewrite app_nil_r. exact Hf.
  - cbn [foldl]. replace (done ++ j :: schedule) with ((done ++ [j]) ++ schedule)
      by (rewrite <- app_assoc; reflexivity).
    apply IH, complete_filled, Hf.
Qed.

Lemma lookup_map {A B : Type} (f : A -> B) (l : list A) (i : nat) :
  map f l !! i = option_map f (l !! i).
Proof.
  revert i. induction l as [|x l IH]; intros [|i]; simpl; auto.
Qed.

(** The batch under a complete schedule. *)
Lemma batch_complete (schedule : list nat) (s : State) :
  (forall a si r si', worker a si = (inr r, si') -> article r = a) ->
  Permutation schedule (seq 0 (length articles)) ->
  exists out,
    fst (processBatchWith now maxLength worker schedule articles s) = Some out
    /\ length out = length articles
    /\ map article out = articles
    /\ forall i a, articles !! i = Some a ->
         exists si,
           out !! i = Some (fst (protect now maxLength worker a si))
           /\ (forall e si', worker a si = (inl e, si') ->
                 out !! i = Some (allUnavailable now maxLength a)).
Proof.
  intros Hw Hperm. unfold processBatchWith.
  pose proof (foldl_filled schedule []
                (replicate (length articles) None, s)) as Hf.
  destruct (foldl _ _ schedule) as [slots s'] eqn:Hfold.
  destruct Hf as [Hlen Hdone].
  { split; [apply length_replicate | intros i a _ []]. }
  cbn [fst] in *.
  assert (Hin : forall i, i < length articles -> In i schedule).
  { intros i Hi. apply (Permutation_in i (Permutation_sym Hperm)).
    apply in_seq. lia. }
  destruct (joinAll_filled slots) as [out [Hj [Hl Hget]]].
  { intros i Hi. rewrite Hlen in Hi.
    destruct (lookup_lt_is_Some_2 articles i Hi) as [a Ha].
    destruct (Hdone i a Ha (Hin i Hi)) as [si Hsi]. eauto. }
  assert (Hrec : forall i a, articles !! i = Some a ->
            exists si, out !! i
                       = Some (fst (protect now maxLength worker a si))).
  { intros i a Ha. destruct (Hdone i a Ha) as [si Hsi].
    - apply Hin. apply lookup_lt_Some in Ha. exact Ha.
    - exists si. apply Hget, Hsi. }
  exists out. split; [exact Hj|]. split; [congruence|]. split.
  - apply list_eq. intros i. rewrite lookup_map.
    destruct (articles !! i) as [a|] eqn:Ha.
    + destruct (Hrec i a Ha) as [si ->]. cbn [option_map]. f_equal.
      unfold protect. destruct (worker a si) as [[e|r] si'] eqn:Hwa.
      * reflexivity.
      * apply (Hw a si r si' Hwa).
    + apply lookup_ge_None in Ha. rewrite <- Hlen, <- Hl in Ha.
      apply lookup_ge_None in Ha. rewrite Ha. reflexivity.
  - intros i a Ha. destruct (Hrec i a Ha) as [si Hsi].
    exists si. split; [exact Hsi|].
    intros e si' He. rewrite Hsi. unfold protect. rewrite He. reflexivity.
Qed.

Lemma protect_state (a : RawArticle) (s : State) :
  snd (protect now maxLength worker a s) = snd (worker a s).
Proof. unfold protect. destruct (worker a s) as [[e|r] s']; reflexivity. Qed.

(** The slots and the state after a schedule without repetition: task
    [i] wrote its slot when its turn came, in the state the earlier
    tasks had left, and no later task touched that slot. *)
Lemma foldl_complete_spec (schedule : list nat)
  (slots : list (option ProcessedArticle)) (s : State) :
  length slots = length articles ->
  NoDup schedule ->
  let res := foldl (complete now maxLength worker articles) (slots, s)
               schedule in
  length (fst res) = length articles
  /\ snd res = stateAfter worker articles schedule s
  /\ (forall i, ~ In i schedule -> fst res !! i = slots !! i)
  /\ (forall i a pre post,
        schedule = pre ++ i :: post -> articles !! i = Some a ->
        fst res !! i
        = Some (Some (fst (protect now maxLength worker a
                             (stateAfter worker articles pre s))))).
Proof.
  revert slots s. induction schedule as [|j rest IH]; intros slots s Hlen Hnd.
  - cbn. repeat split; try assumption.
    intros i a pre post Hs. destruct pre; discriminate.
  - inversion Hnd as [|j' rest' Hj Hrest]; subst.
    cbn [foldl].
    set (acc := complete now maxLength worker articles (slots, s) j).
    assert (Hacc : length (fst acc) = length articles
                   /\ snd acc = stateAfter worker articles [j] s
                   /\ (forall i, i <> j -> fst acc !! i = slots !! i)
                   /\ (forall a, articles !! j = Some a ->
                         fst acc !! j
                         = Some (Some (fst (protect now maxLength worker a s))))).
    { unfold acc, complete, stateAfter. cbn [snd fst foldl].
      destruct (articles !! j) as [aj|] eqn:Haj.
      - destruct (protect now maxLength worker aj s) as [r s1] eqn:Hp.
        cbn [fst snd]. split; [rewrite length_insert; exact Hlen|].
        split; [rewrite <- protect_state, Hp; reflexivity|].
        split.
        + intros i Hne. apply list_lookup_insert_ne. congruence.
        + intros a [= <-]. rewrite Hp. apply list_lookup_insert_eq.
          rewrite Hlen. apply (lookup_lt_Some _ _ _ Haj).
      - cbn [fst snd]. repeat split; try assumption; discriminate. }
    destruct Hacc as [Hlen1 [Hs1 [Hframe1 Hslot1]]].
    destruct acc as [slots1 s1]. cbn [fst snd] in *.
    destruct (IH slots1 s1 Hlen1 Hrest) as [Hl [Hs [Hframe Hslot]]].
    split; [exact Hl|]. split.
    { rewrite Hs, Hs1. reflexivity. }
    split.
    { intros i Hi. rewrite Hframe by (intros Hin; apply Hi; right; exact Hin).
      apply Hframe1. intros ->. apply Hi. left. reflexivity. }
    intros i a pre post Hsched Ha. destruct pre as [|j0 pre].
    + cbn [app] in Hsched. injection Hsched as -> ->.
      rewrite Hframe by (rewrite <- list_elem_of_In; exact Hj).
      apply Hslot1, Ha.
    + cbn [app] in Hsched. injection Hsched as <- ->.
      rewrite (Hslot i a pre post eq_refl Ha). rewrite Hs1. reflexivity.
Qed.

(** C2. Whatever the order in which the tasks of a batch complete (any
    permutation of the indices), the batch comes back with as many
    records as there were articles, in the order of the articles:
    record [i] carries article [i] and is the outcome of the one run of
    the worker on it, in the state the tasks completed before it had
    left.  When that run returned a record, record [i] is that record;
    when it failed as a whole, record [i] is the all-unavailable record
    of the article; and either way the other tasks run and their records
    are produced all the same. *)
Theorem processBatch_length_and_order (schedule : list nat) (s : State) :
  (forall a si r si', worker a si = (inr r, si') -> article r = a) ->
  Permutation schedule (seq 0 (length articles)) ->
  exists out,
    processBatchWith now maxLength worker schedule articles s
      = (Some out, stateAfter worker articles schedule s)
    /\ length out = length articles
    /\ map article out = articles
    /\ forall i a, articles !! i = Some a ->
         (exists pre post, schedule = pre ++ i :: post)
         /\ forall pre post, schedule = pre ++ i :: post ->
              let si := stateAfter worker articles pre s in
              (forall r si', worker a si = (inr r, si') ->
                 out !! i = Some r)
              /\ (forall e si', worker a si = (inl e, si') ->
                    out !! i = Some (allUnavailable now maxLength a)).
Proof.
  intros Hw Hperm.
  assert (Hnd : NoDup schedule).
  { rewrite Hperm. apply NoDup_seq. }
  assert (Hin : forall i, i < length articles -> In i schedule).
  { intros i Hi. apply (Permutation_in i (Permutation_sym Hperm)).
    apply in_seq. lia. }
  unfold processBatchWith.
  pose proof (foldl_complete_spec schedule
                (replicate (length articles) None) s
                (length_replicate _ _) Hnd) as Hspec.
  cbn zeta in Hspec.
  destruct (foldl _ _ schedule) as [slots s'] eqn:Hfold.
  cbn [fst snd] in Hspec. destruct Hspec as [Hlen [Hs [_ Hslot]]].
  assert (Hrec : forall i a, articles !! i = Some a ->
            exists pre post, schedule = pre ++ i :: post).
  { intros i a Ha. apply in_split, Hin, (lookup_lt_Some _ _ _ Ha). }
  destruct (joinAll_filled slots) as [out [Hj [Hl Hget]]].
  { intros i Hi. rewrite Hlen in Hi.
    destruct (lookup_lt_is_Some_2 articles i Hi) as [a Ha].
    destruct (Hrec i a Ha) as [pre [post Hsched]].
    rewrite (Hslot i a pre post Hsched Ha). eauto. }
  exists out. rewrite Hj, Hs. split; [reflexivity|]. split; [congruence|].
  split.
  - apply list_eq. intros i. rewrite lookup_map.
    destruct (articles !! i) as [a|] eqn:Ha.
    + destruct (Hrec i a Ha) as [pre [post Hsched]].
      rewrite (Hget _ _ (Hslot i a pre post Hsched Ha)).
      cbn [option_map]. f_equal. unfold protect.
      destruct (worker a (stateAfter worker articles pre s))
        as [[e|r] si'] eqn:Hwa.
      * reflexivity.
      * apply (Hw _ _ _ _ Hwa).
    + apply lookup_ge_None in Ha. rewrite <- Hlen, <- Hl in Ha.
      apply lookup_ge_None in Ha. rewrite Ha. reflexivity.
  - intros i a Ha. split; [apply (Hrec i a Ha)|].
    intros pre post Hsched.
    pose proof (Hget _ _ (Hslot i a pre post Hsched Ha)) as Hout.
    unfold protect in Hout.
    split; intros x si' Hx; rewrite Hx in Hout; exact Hout.
Qed.

End Batch.

Lemma foldl_complete_nil (now : N) (maxLength : nat)
  (worker : RawArticle -> M ProcessedArticle) (schedule : list nat)
  (acc : list (option ProcessedArticle) * State) :
  foldl (complete now maxLength worker []) acc schedule = acc.
Proof.
  induction schedule as [|j schedule IH]; [reflexivity|].
  cbn [foldl]. unfold complete at 2. rewrite lookup_nil. exact IH.
Qed.

End PipelineFacts.

Lemma processOne_total_on_well_formed_witness :
  let a := Examples.raw "A" "Stocks rally" in
  Pipeline.processOne Examples.stages Examples.fingerprint 100 60 400
    (Examples.raw "B" "") Examples.fresh
    = (inl Pipeline.MalformedInput, Examples.fresh)
  /\ exists pa s',
       Pipeline.processOne Examples.stages Examples.fingerprint 100 60 400
         a Examples.fresh = (inr pa, s')
       /\ Pipeline.origin (Pipeline.sentiment pa) = Pipeline.fallback
       /\ Pipeline.origin (Pipeline.summary pa) = Pipeline.unavailable.
Proof.
  intros a. split.
  - apply (PipelineFacts.processOne_total_on_well_formed Examples.stages
             Examples.fingerprint 100 60 400 (Examples.raw "B" "")
             Examples.fresh).
    left. reflexivity.
  - destruct (PipelineFacts.processOne_total_on_well_formed Examples.stages
                Examples.fingerprint 100 60 400 a Examples.fresh)
      as [_ Hok].
    destruct Hok as [pa [s' [Hrun [_ [Hsen [_ Hsum]]]]]];
      [discriminate | vm_compute; lia |].
    exists pa, s'. split; [exact Hrun|]. split.
    + destruct (Hsen eq_refl) as [_ Hr]. rewrite (Hr _ eq_refl). reflexivity.
    + destruct (Hsum eq_refl) as [Hd _].
      apply (Hd Pipeline.RemoteFailure eq_refl).
Defined.

(** C1, as it is worded: an article without text gets no record. *)
Lemma empty_article_is_rejected :
  ~ exists pa s',
      Pipeline.processOne Examples.stages Examples.fingerprint 100 60 400
        (Examples.raw "B" "") Examples.fresh = (inr pa, s').
Proof. intros [pa [s' Hrun]]. discriminate Hrun. Qed.

Lemma processBatch_length_and_order_witness :
  let a0 := Examples.raw "A" "Stocks rally as tech earnings beat expectations" in
  let s2 := Pipeline.stateAfter Examples.flaky Examples.batch [2]
              Examples.fresh in
  exists out r0 s0,
    fst (Pipeline.processBatchWith 100 400 Examples.flaky [2; 0; 1]
           Examples.batch Examples.fresh) = Some out
    /\ length out = 3
    /\ map Pipeline.article out = Examples.batch
    /\ Examples.flaky a0 s2 = (inr r0, s0)
    /\ out !! 0 = Some r0
    /\ Pipeline.origin (Pipeline.sentiment r0) = Pipeline.fallback
    /\ out !! 1 = Some (Pipeline.allUnavailable 100 400 (Examples.raw "B" "")).
Proof.
  intros a0 s2.
  destruct (PipelineFacts.processBatch_length_and_order 100 400
              Examples.flaky Examples.batch [2; 0; 1] Examples.fresh)
    as [out [Hrun [Hlen [Hord Hrec]]]].
  - intros a si r si'. unfold Examples.flaky.
    destruct (Pipeline.content a); [discriminate|].
    apply PipelineFacts.processOne_article.
  - apply (Permutation_cons_app [0; 1] [] 2). reflexivity.
  - destruct (Hrec 0 a0 eq_refl) as [_ Hzero].
    destruct (Hzero [2] [1] eq_refl) as [Hok _].
    destruct (Hrec 1 (Examples.raw "B" "") eq_refl) as [_ Hone].
    destruct (Hone [2; 0] [] eq_refl) as [_ Hfail].
    destruct (Examples.flaky a0 s2) as [[e|r0] s0] eqn:Hflaky.
    { exfalso. revert Hflaky. unfold Examples.flaky, a0.
      cbn [Pipeline.content Examples.raw]. vm_compute. discriminate. }
    exists out, r0, s0. rewrite Hrun. split; [reflexivity|].
    split; [exact Hlen|]. split; [exact Hord|]. split; [reflexivity|].
    split; [apply (Hok r0 s0 Hflaky)|]. split.
    + revert Hflaky. vm_compute. intros [= <- _]. reflexivity.
    + apply (Hfail Pipeline.Unexpected
               (Pipeline.stateAfter Examples.flaky Examples.batch [2; 0]
                  Examples.fresh)).
      reflexivity.
Defined.

Lemma cache_hit_only_before_expiry_witness :
  let stale := Pipeline.OfSentiment Pipeline.degradedSentiment in
  let c1 := Pipeline.ResultCache.put 100 ∅ Pipeline.Sentiment 7 stale 60 in
  Pipeline.ResultCache.get 159 c1 Pipeline.Sentiment 7 = Some stale
  /\ Pipeline.ResultCache.get 160 c1 Pipeline.Sentiment 7 = None
  /\ Pipeline.ran
       (snd (Pipeline.cached 160 60 Pipeline.Sentiment Pipeline.OfSentiment
               Pipeline.asSentiment 7
               (fun _ => Pipeline.classifySentiment Examples.stages [])
               {| Pipeline.cache := c1; Pipeline.ran := [] |}))
     = [(Pipeline.Sentiment, 7%N)].
Proof.
  intros stale c1.
  destruct (PipelineFacts.cache_hit_only_before_expiry 100 159 60 60 ∅
              Pipeline.Sentiment 7 stale Pipeline.OfSentiment
              Pipeline.asSentiment
              (fun _ => Pipeline.classifySentiment Examples.stages []) [])
    as [_ [Hhit _]].
  destruct (PipelineFacts.cache_hit_only_before_expiry 100 160 60 60 ∅
              Pipeline.Sentiment 7 stale Pipeline.OfSentiment
              Pipeline.asSentiment
              (fun _ => Pipeline.classifySentiment Examples.stages []) [])
    as [_ [_ Hexp]].
  split; [apply Hhit; reflexivity|].
  destruct Hexp as [Hmiss [_ [_ Hran]]]; [discriminate|].
  split; [exact Hmiss | exact Hran].
Defined.

(** ** The pipeline and the chat together *)

Section EndToEnd.
Context `{H : Host}.

Import Pipeline.

(** C6. [fetchAndProcess] is [processBatch] on what the source returned,
    however few articles that is: one record per fetched article, in
    their order.  When the source returns nothing the result is the
    empty list, not an error; and the chat, receiving an answer whose
    [processed_articles] is empty, appends the no-results reply, which
    is not the connection-error reply. *)
Theorem fetchAndProcess_on_what_was_fetched
  (stages : Stages) (fingerprint : RawArticle -> N) (now ttl : N)
  (maxLength : nat) (fetch : list N -> nat -> list RawArticle)
  (schedule : list nat) (query : list N) (pageSize : nat) (s : State)
  (w : World) (st : AppState) (d : FetchData.t) :
  Permutation schedule (seq 0 (length (fetch query pageSize))) ->
  truthy (trim (inputValue st)) = true ->
  isLoading st = false ->
  isArticleContent (trim (inputValue st)) = false ->
  isNewsQuery (trim (inputValue st)) = true ->
  api_fetch_and_process w (fetchBodyOf (trim (inputValue st))) = Json d ->
  FetchData.processed_articles d = Val [] ->
  let run :=
    fetchAndProcess stages fingerprint now ttl maxLength fetch schedule
      query pageSize s in
  run = processBatch stages fingerprint now ttl maxLength schedule
          (fetch query pageSize) s
  /\ (exists out, fst run = Some out
                  /\ length out = length (fetch query pageSize)
                  /\ map article out = fetch query pageSize)
  /\ (fetch query pageSize = [] -> run = (Some [], s))
  /\ fst (handleSendMessage w st) =
       {| messages :=
            messages st ++
              [userMessage w st;
               {| text := noResultsText; sender := bot;
                  timestamp := botTime w |}];
          inputValue := [];
          isLoading := false |}
  /\ noResultsText <> errorText.
Proof.
  intros Hperm Ht Hl Ha Hn Hd He run. split; [reflexivity|]. split; [|split].
  - destruct (PipelineFacts.batch_complete now maxLength
                (processOne stages fingerprint now ttl maxLength)
                (fetch query pageSize) schedule s)
      as [out [Hrun [Hlen [Hord _]]]].
    + intros a si r si'. apply PipelineFacts.processOne_article.
    + exact Hperm.
    + exists out. auto.
  - intros Hnone. unfold run, fetchAndProcess, processBatch, processBatchWith.
    rewrite Hnone, PipelineFacts.foldl_complete_nil. reflexivity.
  - split.
    + apply (empty_result_reply w st d Ht Hl Ha Hn Hd). left. exact He.
    + vm_compute. discriminate.
Qed.

(** C4. A credibility stage without a primary result answers unknown
    with confidence 0 and origin unavailable, never authentic or fake.
    The chat has no label for unknown.  Whatever the prediction, it
    prints 'High' for a confidence that is missing, null or falsy, and
    the rounded percentage for any other.  Whatever the confidence, it
    prints the warning for the prediction 'fake' and '✅ Likely
    authentic' for every other prediction, a missing one included.  So
    a result with a falsy confidence and a prediction other than 'fake',
    as the degraded one is, reads 'High ✅ Likely authentic', and so does
    an article that comes without any credibility analysis. *)
Theorem degraded_credibility_stage_and_rendering
  (primaryModel : list N -> option (CredibilityValue * Q)) (text : list N)
  (f : FakeNewsDetection.t) (a : Article.t) :
  (primaryModel text = None ->
   CredibilityStage.classify primaryModel text
     = inr {| value := unknown; confidence := 0; origin := unavailable |})
  /\ match FakeNewsDetection.confidence f with
     | Val x =>
         (num_truthy x = false -> credibilityScore f = lit "High")
         /\ (num_truthy x = true ->
             credibilityScore f = toFixed (times100 x) 0 ++ lit "%")
     | _ => credibilityScore f = lit "High"
     end
  /\ (FakeNewsDetection.prediction f = Val (lit "fake") ->
      credibilityVerdict f = lit "⚠️ Potential fake news detected")
  /\ (FakeNewsDetection.prediction f <> Val (lit "fake") ->
      credibilityVerdict f = lit "✅ Likely authentic")
  /\ (match FakeNewsDetection.confidence f with
      | Val x => num_truthy x = false
      | _ => True
      end ->
      FakeNewsDetection.prediction f <> Val (lit "fake") ->
      credibilityScore f ++ lit " " ++ credibilityVerdict f
        = lit "High ✅ Likely authentic")
  /\ ((forall d, Article.fake_news_detection a <> Val d) ->
      credibilityScore (fakeNewsOf a) ++ lit " "
        ++ credibilityVerdict (fakeNewsOf a)
        = lit "High ✅ Likely authentic").
Proof.
  assert (Hscore : match FakeNewsDetection.confidence f with
                   | Val x => num_truthy x = false
                   | _ => True
                   end -> credibilityScore f = lit "High").
  { unfold credibilityScore.
    destruct (FakeNewsDetection.confidence f) as [| |x];
      [reflexivity | reflexivity | intros ->; reflexivity]. }
  assert (Hauth : FakeNewsDetection.prediction f <> Val (lit "fake") ->
                  credibilityVerdict f = lit "✅ Likely authentic").
  { intros Hf. unfold credibilityVerdict.
    destruct (FakeNewsDetection.prediction f) as [| |p];
      [reflexivity | reflexivity |].
    destruct (strictEq p (lit "fake")) eqn:E; [|reflexivity].
    exfalso. apply Hf. f_equal. clear Hf.
    revert E. generalize (lit "fake").
    induction p as [|c p IH]; intros [|c' k]; simpl; try discriminate.
    + reflexivity.
    + intros E. apply andb_true_iff in E as [Ec Ek].
      apply N.eqb_eq in Ec. subst. f_equal. apply IH, Ek. }
  split; [|split; [|split; [|split; [|split]]]].
  - intros Hp. unfold CredibilityStage.classify. rewrite Hp. reflexivity.
  - unfold credibilityScore.
    destruct (FakeNewsDetection.confidence f) as [| |x];
      [reflexivity | reflexivity |].
    split; intros ->; reflexivity.
  - intros Hp. unfold credibilityVerdict. rewrite Hp. reflexivity.
  - exact Hauth.
  - intros Hc Hf. rewrite (Hscore Hc), (Hauth Hf). vm_compute. reflexivity.
  - intros Hmiss. unfold fakeNewsOf.
    destruct (Article.fake_news_detection a) as [| |d];
      [vm_compute; reflexivity | vm_compute; reflexivity |].
    exfalso. apply (Hmiss d). reflexivity.
Qed.

End EndToEnd.

(** ** The statements at concrete inputs *)

Lemma long_message_posted_as_article_witness :
  snd (handleSendMessage (Examples.serving Examples.degradedArticle)
         (Examples.typed Examples.pasted)) =
    [ {| url := lit "http://localhost:8000/api/process";
         method := lit "POST";
         headers := [(lit "Content-Type", lit "application/json")];
         body :=
           OfProcess
             {| ProcessBody.title := lit "Tech earnings";
                ProcessBody.content :=
                  List.concat (repeat (lit "Stocks rally today. ") 10)
                    ++ lit "!!";
                ProcessBody.source := lit "User Input";
                ProcessBody.include_analysis := true |} |} ].
Proof.
  rewrite (long_message_posted_as_article
             (Examples.serving Examples.degradedArticle)
             (Examples.typed Examples.pasted) eq_refl eq_refl).
  - vm_compute. reflexivity.
  - vm_compute. lia.
Defined.

Lemma short_message_routed_by_keyword_witness :
  snd (handleSendMessage Examples.offline
         (Examples.typed (lit "  Latest NEWS on AI "))) =
    [ {| url := lit "http://localhost:8000/api/fetch-and-process";
         method := lit "POST";
         headers := [(lit "Content-Type", lit "application/json")];
         body := OfFetch (fetchBodyOf (lit "Latest NEWS on AI")) |} ]
  /\ snd (handleSendMessage Examples.offline (Examples.typed (lit "hello")))
     = [].
Proof.
  split.
  - destruct (short_message_routed_by_keyword Examples.offline
                (Examples.typed (lit "  Latest NEWS on AI ")) eq_refl eq_refl)
      as [[Hyes _] _]; [vm_compute; lia|].
    apply Hyes. exists (lit "news"). split; [vm_compute; tauto|].
    exists (lit "latest "), (lit " on ai"). reflexivity.
  - destruct (short_message_routed_by_keyword Examples.offline
                (Examples.typed (lit "hello")) eq_refl eq_refl)
      as [[Hyes _] Hno]; [vm_compute; lia|].
    apply Hno. intros Hk. apply Hyes in Hk. vm_compute in Hk. discriminate.
Defined.

Lemma chit_chat_reply_is_table_lookup_witness :
  let st := Examples.typed (lit "hello") in
  let w := Examples.offline in
  let w' := Examples.serving Examples.degradedArticle in
  generalResponses !! 2
    = Some (text (botMessage w (fst (respond w (trim (inputValue st))))))
  /\ text (botMessage w (fst (respond w (trim (inputValue st)))))
     = text (botMessage w' (fst (respond w' (trim (inputValue st))))).
Proof.
  intros st w w'.
  destruct (chit_chat_reply_is_table_lookup w w' st
              eq_refl eq_refl eq_refl eq_refl)
    as [_ [_ [_ [Hat [_ Hsame]]]]].
  split; [exact Hat | apply Hsame; reflexivity].
Defined.

Lemma fetchAndProcess_on_what_was_fetched_witness :
  let st := Examples.typed (lit "latest news") in
  let w := Examples.serving Examples.degradedArticle in
  Pipeline.fetchAndProcess Examples.stages Examples.fingerprint 100 60 400
    Examples.noMatch [] (lit "latest news") 5 Examples.fresh
    = (Some [], Examples.fresh)
  /\ fst (handleSendMessage w st) =
       {| messages :=
            messages st ++
              [userMessage w st;
               {| text := noResultsText; sender := bot;
                  timestamp := botTime w |}];
          inputValue := [];
          isLoading := false |}.
Proof.
  intros st w.
  destruct (fetchAndProcess_on_what_was_fetched Examples.stages
              Examples.fingerprint 100 60 400 Examples.noMatch []
              (lit "latest news") 5 Examples.fresh w st
              {| FetchData.processed_articles := Val [] |})
    as [_ [_ [Hnone [Hreply _]]]]; try reflexivity.
  split; [apply Hnone; reflexivity | exact Hreply].
Defined.

Lemma degraded_credibility_stage_and_rendering_witness :
  let f := Wire.fakeNewsDetection Pipeline.CredibilityStage.degraded in
  let real := @FakeNewsDetection.Build_t ExampleHost.host
                (Val (lit "real")) (Val (9 # 10)) in
  let fake := @FakeNewsDetection.Build_t ExampleHost.host
                (Val (lit "fake")) (Val 0%Q) in
  Pipeline.CredibilityStage.classify (fun _ => None) (lit "Stocks rally")
    = inr Pipeline.CredibilityStage.degraded
  /\ credibilityScore f ++ lit " " ++ credibilityVerdict f
     = lit "High ✅ Likely authentic"
  /\ credibilityScore real = lit "90%"
  /\ credibilityVerdict real = lit "✅ Likely authentic"
  /\ credibilityScore fake = lit "High"
  /\ credibilityVerdict fake = lit "⚠️ Potential fake news detected".
Proof.
  intros f real fake.
  destruct (degraded_credibility_stage_and_rendering (H := ExampleHost.host)
              (fun _ => None) (lit "Stocks rally") f Examples.degradedArticle)
    as [Hstage [_ [_ [_ [Hline _]]]]].
  destruct (degraded_credibility_stage_and_rendering (H := ExampleHost.host)
              (fun _ => None) (lit "Stocks rally") real
              Examples.degradedArticle)
    as [_ [[_ Hpct] [_ [Hauth _]]]].
  destruct (degraded_credibility_stage_and_rendering (H := ExampleHost.host)
              (fun _ => None) (lit "Stocks rally") fake
              Examples.degradedArticle)
    as [_ [[Hhigh _] [Hwarn _]]].
  split; [apply Hstage; reflexivity|].
  split; [apply Hline; [reflexivity | discriminate]|].
  split; [rewrite (Hpct eq_refl); vm_compute; reflexivity|].
  split; [apply Hauth; discriminate|].
  split; [apply Hhigh; reflexivity | apply Hwarn; reflexivity].
Defined.

(** C4, as it is worded: the degraded credibility result, unknown and
    unavailable, reaches the user as "High ✅ Likely authentic". *)
Lemma degraded_credibility_shown_as_authentic :
  let r := Pipeline.CredibilityStage.degraded in
  Pipeline.value r = Pipeline.unknown
  /\ Pipeline.origin r = Pipeline.unavailable
  /\ Article.fake_news_detection Examples.degradedArticle
     = Val (Wire.fakeNewsDetection r)
  /\ includes (articleAnalysisText Examples.degradedArticle)
       (lit "- Credibility: High ✅ Likely authentic") = true.
Proof.
  intros r. split; [reflexivity|]. split; [reflexivity|].
  split; [reflexivity|]. vm_compute. reflexivity.
Qed.

(** * Further properties of the front end *)

Lemma strictEq_eq (a b : jsstring) : strictEq a b = true <-> a = b.
Proof.
  revert b. induction a as [|x a IH]; intros [|y b]; simpl;
    try (split; [discriminate | intros [=]]); [tauto|].
  rewrite andb_true_iff, N.eqb_eq, IH. split.
  - intros [-> ->]. reflexivity.
  - intros [= -> ->]. auto.
Qed.

Section Guard.
Context `{H : Host}.

(** The three branches of the [try] block, with the bodies spelled out. *)
Lemma respond_article (w : World) (t : jsstring) :
  isArticleContent t = true ->
  respond w t =
    (match api_process w (processBodyOf t) with
     | Json article => Normal (articleAnalysisText article)
     | _ => Throw
     end,
     [post "http://localhost:8000/api/process" (OfProcess (processBodyOf t))]).
Proof.
  intros Ha. unfold respond. rewrite Ha.
  destruct (split_head_tail t) as [Hhd Htl].
  assert (Hfirst : nth 0 (split t) [] = firstLine t)
    by (rewrite Hhd; reflexivity).
  rewrite Htl, Hfirst. reflexivity.
Qed.

Lemma respond_news (w : World) (t : jsstring) :
  isArticleContent t = false -> isNewsQuery t = true ->
  respond w t =
    (match api_fetch_and_process w (fetchBodyOf t) with
     | Json data =>
         match FetchData.processed_articles data with
         | Val (article :: _) =>
             Normal (if isTrendQuery t then trendAnalysisText t article
                     else latestNewsText article)
         | _ => Normal noResultsText
         end
     | _ => Throw
     end,
     [post "http://localhost:8000/api/fetch-and-process"
        (OfFetch (fetchBodyOf t))]).
Proof.
  intros Ha Hn. unfold respond. rewrite Ha, Hn. unfold fetchBodyOf.
  destruct (api_fetch_and_process w _) as [| | |d]; try reflexivity.
  destruct (FetchData.processed_articles d) as [| |[|a l]]; reflexivity.
Qed.

Lemma respond_chat (w : World) (t : jsstring) :
  isArticleContent t = false -> isNewsQuery t = false ->
  respond w t = (Normal (randomResponse (random w)), []).
Proof. intros Ha Hn. unfold respond. rewrite Ha, Hn. reflexivity. Qed.

Lemma isDisabled_false (st : AppState) :
  isDisabled st = false <->
  truthy (trim (inputValue st)) = true /\ isLoading st = false.
Proof.
  unfold isDisabled. rewrite orb_false_iff, negb_false_iff. tauto.
Qed.

(** X1. The send button of [InputArea] is disabled exactly when
    [handleSendMessage] would do nothing: on a disabled state a send
    returns the state untouched and requests nothing, and on an enabled
    state every send changes the state, the conversation growing by two
    messages. *)
Theorem send_button_disabled_iff_send_is_noop (w : World) (st : AppState) :
  (isDisabled st = true -> handleSendMessage w st = (st, []))
  /\ (isDisabled st = false ->
      length (messages (fst (handleSendMessage w st)))
        = length (messages st) + 2
      /\ fst (handleSendMessage w st) <> st).
Proof.
  split; [apply handleSendMessage_rejected|].
  intros Hd. apply isDisabled_false in Hd as [Ht Hl].
  rewrite (handleSendMessage_accepted w st Ht Hl). cbn [fst messages].
  assert (Hlen : length ((messages st ++ [userMessage w st])
                         ++ [botMessage w (fst (respond w (trim (inputValue st))))])
                 = length (messages st) + 2).
  { rewrite !length_app. simpl. lia. }
  split; [exact Hlen|].
  intros Heq. apply (f_equal messages) in Heq. cbn [messages] in Heq.
  rewrite Heq in Hlen. lia.
Qed.

(** X2. A key press reaches the conversation only as Enter without
    Shift on a state whose send button is enabled: any other key, Enter
    with Shift, or Enter on a disabled state leaves the state as it was
    and requests nothing.  The default action is prevented for every
    Enter without Shift, on a disabled state too, and for no other key. *)
Theorem key_press_sends_only_on_plain_enter
  (e : KeyEvent.t) (w : World) (st : AppState) :
  (fst (handleKeyPress e w st) = true <->
   KeyEvent.key e = lit "Enter" /\ KeyEvent.shiftKey e = false)
  /\ (snd (handleKeyPress e w st) <> (st, []) ->
      KeyEvent.key e = lit "Enter" /\ KeyEvent.shiftKey e = false
      /\ isDisabled st = false)
  /\ (KeyEvent.key e = lit "Enter" -> KeyEvent.shiftKey e = false ->
      snd (handleKeyPress e w st) = handleSendMessage w st).
Proof.
  unfold handleKeyPress.
  destruct (strictEq (KeyEvent.key e) (lit "Enter")) eqn:Ek.
  - apply strictEq_eq in Ek. destruct (KeyEvent.shiftKey e) eqn:Es; simpl.
    + split; [split; [discriminate | intros [_ [=]]]|].
      split; [intros Hn; exfalso; apply Hn; reflexivity | intros _ [=]].
    + split; [tauto|]. split; [|reflexivity].
      intros Hn. split; [exact Ek|]. split; [reflexivity|].
      destruct (isDisabled st) eqn:Ed; [|reflexivity].
      exfalso. apply Hn. apply handleSendMessage_rejected, Ed.
  - assert (Hne : KeyEvent.key e <> lit "Enter").
    { intros Heq. apply strictEq_eq in Heq. congruence. }
    simpl. split; [split; [discriminate | intros [Heq _]; contradiction]|].
    split; [intros Hn; exfalso; apply Hn; reflexivity|].
    intros Heq. contradiction.
Qed.

(** X3. A send empties the input, so sending again without typing does
    nothing: whatever the first send did, the second returns the state
    the first one left and requests nothing. *)
Theorem second_send_is_noop (w w' : World) (st : AppState) :
  handleSendMessage w' (fst (handleSendMessage w st))
    = (fst (handleSendMessage w st), []).
Proof.
  apply handleSendMessage_rejected.
  destruct (isDisabled st) eqn:Ed.
  - rewrite (handleSendMessage_rejected w st Ed). exact Ed.
  - apply isDisabled_false in Ed as [Ht Hl].
    rewrite (handleSendMessage_accepted w st Ht Hl). reflexivity.
Qed.

End Guard.

Lemma trimStart_fixed (s : jsstring) :
  (forall c r, s = c :: r -> isWhiteSpace c = false) -> trimStart s = s.
Proof.
  destruct s as [|c r]; [reflexivity|]. intros Hc. simpl.
  rewrite (Hc c r eq_refl). reflexivity.
Qed.

(** Trimming twice is trimming once. *)
Lemma trim_idem (s : jsstring) : trim (trim s) = trim s.
Proof.
  assert (Hstart : trimStart (trim s) = trim s).
  { apply trimStart_fixed. intros c r. apply trim_head. }
  unfold trim at 1. rewrite Hstart. unfold trim, trimEnd.
  rewrite rev_involutive, trimStart_idem. reflexivity.
Qed.

Section Conversation.
Context `{H : Host}.

Lemma reachable_rendered (st : AppState) : reachable st -> rendered st.
Proof.
  induction 1 as [t0 | st st' _ IH Hstep]; [constructor|].
  destruct Hstep as [st v Hl Hv | st w].
  - apply rendered_change; assumption.
  - apply rendered_done, IH.
Qed.

(** The send as two renderings: the pending state, then the bot message. *)
Lemma pending_then_answer (w : World) (st : AppState) :
  isDisabled st = false ->
  messages (fst (handleSendMessage w st))
    = messages (pendingState w st)
        ++ [botMessage w (fst (respond w (trim (inputValue st))))].
Proof.
  intros Hd. apply isDisabled_false in Hd as [Ht Hl].
  rewrite (handleSendMessage_accepted w st Ht Hl). reflexivity.
Qed.

Lemma alternation_snoc (ms : list Message) (x : Message) :
  (forall i m, ms !! i = Some m ->
     sender m = if Nat.even i then bot else user) ->
  sender x = (if Nat.even (length ms) then bot else user) ->
  forall i m, (ms ++ [x]) !! i = Some m ->
    sender m = if Nat.even i then bot else user.
Proof.
  intros Hms Hx i m Hi. apply lookup_app_Some in Hi as [Hi | [Hge Hi]].
  - apply Hms, Hi.
  - destruct (i - length ms) as [|k] eqn:Ek; simpl in Hi; [|discriminate].
    injection Hi as <-. replace i with (length ms) by lia. exact Hx.
Qed.

(** What every rendered state satisfies. *)
Definition turnTaking (st : AppState) : Prop :=
  (exists t0 rest, messages st = initialMessages t0 ++ rest)
  /\ (forall i m, messages st !! i = Some m ->
        sender m = if Nat.even i then bot else user)
  /\ (isLoading st = false -> Nat.odd (length (messages st)) = true)
  /\ (Nat.even (length (messages st)) = true ->
      isLoading st = true /\ inputValue st = []).

Lemma turnTaking_pending (w : World) (st : AppState) :
  turnTaking st -> isDisabled st = false -> turnTaking (pendingState w st).
Proof.
  intros [[t0 [rest Hms]] [Halt [Hodd _]]] Hd.
  apply isDisabled_false in Hd as [_ Hl]. specialize (Hodd Hl).
  assert (Heven : Nat.even (length (messages st)) = false)
    by (rewrite <- Nat.negb_odd, Hodd; reflexivity).
  unfold pendingState. split; [|split; [|split]]; cbn [messages isLoading inputValue].
  - exists t0, (rest ++ [userMessage w st]). rewrite Hms, <- app_assoc.
    reflexivity.
  - apply alternation_snoc; [exact Halt|]. rewrite Heven. reflexivity.
  - discriminate.
  - intros _. split; reflexivity.
Qed.

Lemma turnTaking_answered (w : World) (st : AppState) (loading : bool) :
  turnTaking st -> isDisabled st = false ->
  turnTaking {| messages := messages (fst (handleSendMessage w st));
                inputValue := []; isLoading := loading |}.
Proof.
  intros Hst Hd. pose proof (turnTaking_pending w st Hst Hd) as Hp.
  destruct Hp as [[t0 [rest Hms]] [Halt [_ _]]].
  destruct Hst as [_ [_ [Hodd _]]].
  pose proof Hd as Hd'. apply isDisabled_false in Hd' as [_ Hl].
  specialize (Hodd Hl).
  assert (Hlen : length (messages (pendingState w st))
                 = S (length (messages st))).
  { cbn [messages pendingState]. rewrite length_app. simpl. lia. }
  assert (Hodd2 : Nat.odd (length (messages (fst (handleSendMessage w st))))
                  = true).
  { rewrite (pending_then_answer w st Hd), length_app, Hlen. cbn [length].
    replace (S (length (messages st)) + 1) with (S (S (length (messages st))))
      by lia.
    rewrite Nat.odd_succ_succ. exact Hodd. }
  split; [|split; [|split]]; cbn [messages isLoading inputValue].
  - rewrite (pending_then_answer w st Hd), Hms, <- app_assoc. eauto.
  - rewrite (pending_then_answer w st Hd).
    apply alternation_snoc; [exact Halt|]. rewrite Hlen, Nat.even_succ, Hodd.
    destruct (fst (respond w (trim (inputValue st)))); reflexivity.
  - intros _. exact Hodd2.
  - intros He. rewrite <- Nat.negb_odd, Hodd2 in He. discriminate.
Qed.

(** X4. In every state the application renders, also while a request
    is pending, the conversation opens with the welcome message and the
    speakers take turns: the messages at even positions are the bot's
    and those at odd positions the user's.  Whenever the application is
    not loading, the number of messages is odd and the last message is
    the bot's; and an even number of messages, the last one being the
    user's and waiting for its answer, is seen only while loading, with
    the input empty. *)
Theorem conversation_alternates (st : AppState) :
  rendered st ->
  (exists t0 rest, messages st = initialMessages t0 ++ rest)
  /\ (forall i m, messages st !! i = Some m ->
        sender m = if Nat.even i then bot else user)
  /\ (isLoading st = false ->
      Nat.odd (length (messages st)) = true
      /\ exists b, last (messages st) = Some b /\ sender b = bot)
  /\ (Nat.even (length (messages st)) = true ->
      isLoading st = true /\ inputValue st = []
      /\ exists u, last (messages st) = Some u /\ sender u = user).
Proof.
  intros Hr.
  assert (Hturn : turnTaking st).
  { induction Hr as [t0 | st v _ IH Hl Hv | st w _ IH Hd | st w _ IH Hd
                    | st w _ IH].
    - split; [exists t0, []; reflexivity|]. split; [|split].
      + intros [|i] m Hi; simpl in Hi; [injection Hi as <-; reflexivity|].
        discriminate.
      + reflexivity.
      + discriminate.
    - destruct IH as [Hpre [Halt [Hodd Heven]]].
      split; [exact Hpre|]. split; [exact Halt|]. split; [exact Hodd|].
      cbn [messages isLoading inputValue]. intros He.
      rewrite <- Nat.negb_odd, (Hodd Hl) in He. discriminate.
    - apply turnTaking_pending; assumption.
    - apply turnTaking_answered; assumption.
    - destruct (isDisabled st) eqn:Hd.
      + rewrite (handleSendMessage_rejected w st Hd). exact IH.
      + pose proof (turnTaking_answered w st false IH Hd) as Hdone.
        pose proof Hd as Hd'. apply isDisabled_false in Hd' as [Ht Hl].
        rewrite (handleSendMessage_accepted w st Ht Hl) in *. exact Hdone. }
  destruct Hturn as [Hpre [Halt [Hodd Heven]]].
  assert (Hlast : forall m, last (messages st) = Some m ->
            sender m = if Nat.odd (length (messages st)) then bot else user).
  { intros m Hm. rewrite last_lookup in Hm.
    pose proof (Halt _ _ Hm) as Hs. apply lookup_lt_Some in Hm.
    destruct (length (messages st)) as [|n]; [lia|].
    cbn [Nat.pred] in Hs. rewrite Nat.odd_succ. exact Hs. }
  assert (Hsome : messages st <> [] ->
            exists m, last (messages st) = Some m).
  { destruct (messages st) as [|x l] using rev_ind; [congruence|].
    intros _. exists x. apply last_snoc. }
  split; [exact Hpre|]. split; [exact Halt|]. split.
  - intros Hl. specialize (Hodd Hl). split; [exact Hodd|].
    destruct Hsome as [m Hm].
    { intros E. rewrite E in Hodd. discriminate. }
    exists m. split; [exact Hm|]. rewrite (Hlast m Hm), Hodd. reflexivity.
  - intros He. destruct (Heven He) as [Hl Hi].
    split; [exact Hl|]. split; [exact Hi|].
    destruct Hsome as [m Hm].
    { destruct Hpre as [t0 [rest Hp]]. rewrite Hp. discriminate. }
    exists m. split; [exact Hm|].
    rewrite (Hlast m Hm), <- Nat.negb_even, He. reflexivity.
Qed.

(** X5. Every message of the user in a reachable state is the trimmed
    input it was sent from: it is not empty, and it neither starts nor
    ends with white space (trimming it again changes nothing). *)
Theorem user_messages_are_trimmed (st : AppState) (m : Message) :
  reachable st -> In m (messages st) -> sender m = user ->
  text m <> [] /\ trim (text m) = text m.
Proof.
  intros Hr. revert m. induction Hr as [t0 | st st' _ IH Hstep].
  - intros m [<- | []]. discriminate.
  - destruct Hstep as [st v _ _ | st w]; [exact IH|].
    destruct (isDisabled st) eqn:Ed.
    + rewrite (handleSendMessage_rejected w st Ed). exact IH.
    + apply isDisabled_false in Ed as [Ht Hl].
      rewrite (handleSendMessage_accepted w st Ht Hl). cbn [fst messages].
      intros m Hin Hs. rewrite !in_app_iff in Hin. simpl in Hin.
      destruct Hin as [[Hin | [<- | []]] | [<- | []]].
      * apply IH; assumption.
      * cbn [text userMessage]. split; [|apply trim_idem].
        intros E. rewrite E in Ht. discriminate.
      * destruct (fst (respond w (trim (inputValue st)))); discriminate.
Qed.

End Conversation.

Lemma conversation_alternates_witness :
  let st := Examples.typed (lit " latest news ") in
  let pending := pendingState Examples.offline st in
  let done := fst (handleSendMessage Examples.offline st) in
  (isLoading pending = true
   /\ exists u, last (messages pending) = Some u /\ sender u = user)
  /\ (Nat.odd (length (messages done)) = true
      /\ exists b, last (messages done) = Some b /\ sender b = bot).
Proof.
  intros st pending done.
  assert (Hst : rendered (H := ExampleHost.host) st).
  { apply reachable_rendered, reachable_typed. vm_compute. lia. }
  split.
  - destruct (conversation_alternates (H := ExampleHost.host) pending)
      as [_ [_ [_ Heven]]].
    + apply rendered_pending; [exact Hst | reflexivity].
    + destruct (Heven eq_refl) as [Hl [_ Hu]]. split; [exact Hl | exact Hu].
  - destruct (conversation_alternates (H := ExampleHost.host) done)
      as [_ [_ [Hrest _]]].
    + apply rendered_done, Hst.
    + apply Hrest. reflexivity.
Defined.

Lemma user_messages_are_trimmed_witness :
  let st := fst (handleSendMessage Examples.offline
                   (Examples.typed (lit " latest news "))) in
  let m := {| text := lit "latest news"; sender := user; timestamp := 1000 |} in
  text m <> [] /\ trim (text m) = text m.
Proof.
  intros st m.
  apply (user_messages_are_trimmed (H := ExampleHost.host) st m).
  - apply (reach_step (Examples.typed (lit " latest news "))).
    + apply reachable_typed. vm_compute. lia.
    + apply step_send.
  - vm_compute. tauto.
  - reflexivity.
Defined.

Lemma firstLine_no_LF (s : jsstring) : ~ In LF (firstLine s).
Proof.
  induction s as [|c r IH]; simpl; [tauto|].
  destruct (c =? LF)%N eqn:E; simpl; [tauto|].
  apply N.eqb_neq in E. intros [Hc | Hin]; [congruence | tauto].
Qed.

Lemma length_firstLine (s : jsstring) : length (firstLine s) <= length s.
Proof.
  induction s as [|c r IH]; simpl; [lia|].
  destruct (c =? LF)%N; simpl; lia.
Qed.

Lemma length_afterFirstLine (s : jsstring) :
  length (afterFirstLine s) <= length s.
Proof.
  induction s as [|c r IH]; simpl; [lia|].
  destruct (c =? LF)%N; simpl; lia.
Qed.

Lemma single_line (s : jsstring) :
  ~ In LF s -> firstLine s = s /\ afterFirstLine s = [].
Proof.
  induction s as [|c r IH]; simpl; [tauto|]. intros Hn.
  destruct (c =? LF)%N eqn:E.
  - apply N.eqb_eq in E. tauto.
  - destruct IH as [-> ->]; tauto.
Qed.

Section Requests.
Context `{H : Host}.

(** What one send requests, read off the input alone. *)
Definition requestsFor (st : AppState) : list Request :=
  let t := trim (inputValue st) in
  if isDisabled st then []
  else if isArticleContent t then
    [post "http://localhost:8000/api/process" (OfProcess (processBodyOf t))]
  else if isNewsQuery t then
    [post "http://localhost:8000/api/fetch-and-process"
       (OfFetch (fetchBodyOf t))]
  else [].

Lemma requests_eq (w : World) (st : AppState) :
  snd (handleSendMessage w st) = requestsFor st.
Proof.
  unfold requestsFor. destruct (isDisabled st) eqn:Ed.
  - rewrite (handleSendMessage_rejected w st Ed). reflexivity.
  - apply isDisabled_false in Ed as [Ht Hl].
    rewrite (handleSendMessage_accepted w st Ht Hl). cbn [snd].
    destruct (isArticleContent (trim (inputValue st))) eqn:Ea.
    + rewrite (respond_article w _ Ea). reflexivity.
    + destruct (isNewsQuery (trim (inputValue st))) eqn:En.
      * rewrite (respond_news w _ Ea En). reflexivity.
      * rewrite (respond_chat w _ Ea En). reflexivity.
Qed.

(** X6. What a send requests is decided by the input alone: replies,
    clock and random draw have no part in it.  It is at most one
    request, and always a POST with a JSON content type and
    [include_analysis] set, either to [/api/process] with the source
    'User Input' or to [/api/fetch-and-process] with page size 5. *)
Theorem requests_depend_only_on_input (w w' : World) (st : AppState) :
  snd (handleSendMessage w st) = snd (handleSendMessage w' st)
  /\ length (snd (handleSendMessage w st)) <= 1
  /\ forall r, In r (snd (handleSendMessage w st)) ->
       method r = lit "POST"
       /\ headers r = [(lit "Content-Type", lit "application/json")]
       /\ ((url r = lit "http://localhost:8000/api/process"
            /\ exists b, body r = OfProcess b
                 /\ ProcessBody.source b = lit "User Input"
                 /\ ProcessBody.include_analysis b = true)
           \/ (url r = lit "http://localhost:8000/api/fetch-and-process"
               /\ exists b, body r = OfFetch b
                    /\ FetchBody.page_size b = 5%N
                    /\ FetchBody.include_analysis b = true)).
Proof.
  rewrite (requests_eq w st), (requests_eq w' st).
  split; [reflexivity|]. unfold requestsFor.
  destruct (isDisabled st); [split; [simpl; lia | intros r []]|].
  destruct (isArticleContent (trim (inputValue st))).
  - split; [simpl; lia|]. intros r [<- | []].
    split; [reflexivity|]. split; [reflexivity|]. left.
    split; [reflexivity|]. eexists. repeat split.
  - destruct (isNewsQuery (trim (inputValue st)));
      [|split; [simpl; lia | intros r []]].
    split; [simpl; lia|]. intros r [<- | []].
    split; [reflexivity|]. split; [reflexivity|]. right.
    split; [reflexivity|]. eexists. repeat split.
Qed.

Lemma processBody_content_trimmed (t : jsstring) :
  trim t = t -> t <> [] ->
  let c := ProcessBody.content (processBodyOf t) in
  c <> [] /\ trim c = c /\ length c <= length t.
Proof.
  intros Ht Hne. unfold processBodyOf. cbn [ProcessBody.content].
  destruct (truthy (trim (afterFirstLine t))) eqn:E.
  - split; [intros E0; rewrite E0 in E; discriminate|].
    split; [apply trim_idem|].
    etransitivity; [apply length_trim | apply length_afterFirstLine].
  - split; [exact Hne|]. split; [exact Ht | lia].
Qed.

(** X7. What is put into a request is never empty and never longer than
    the input.  The title of an article request is the first line of
    the trimmed input: not empty, without a line feed; its content is
    not empty and is trimmed.  The query of a news request is the
    trimmed input, not empty and of at most 200 code units. *)
Theorem request_fields_are_filled (w : World) (st : AppState) (r : Request) :
  In r (snd (handleSendMessage w st)) ->
  match body r with
  | OfProcess b =>
      ProcessBody.title b = firstLine (trim (inputValue st))
      /\ ProcessBody.title b <> []
      /\ ~ In LF (ProcessBody.title b)
      /\ ProcessBody.content b <> []
      /\ trim (ProcessBody.content b) = ProcessBody.content b
      /\ length (ProcessBody.title b) <= length (inputValue st)
      /\ length (ProcessBody.content b) <= length (inputValue st)
  | OfFetch b =>
      FetchBody.query b = trim (inputValue st)
      /\ FetchBody.query b <> []
      /\ length (FetchBody.query b) <= 200
  end.
Proof.
  rewrite (requests_eq w st). unfold requestsFor.
  destruct (isDisabled st) eqn:Ed; [intros []|].
  apply isDisabled_false in Ed as [Ht Hl].
  assert (Hne : trim (inputValue st) <> [])
    by (intros E; rewrite E in Ht; discriminate).
  pose proof (length_trim (inputValue st)) as Hlen.
  destruct (isArticleContent (trim (inputValue st))) eqn:Ea.
  - intros [<- | []]. cbn [body post].
    pose proof (pasted_title_is_first_line st Ht) as Htitle.
    destruct (processBody_content_trimmed (trim (inputValue st))
                (trim_idem _) Hne) as [Hc [Hct Hcl]].
    rewrite Htitle. split; [reflexivity|]. split.
    { intros E. pose proof (trim_firstLine _ Ht) as Hf. rewrite E in Hf.
      discriminate. }
    split; [apply firstLine_no_LF|]. split; [exact Hc|].
    split; [exact Hct|].
    pose proof (length_firstLine (trim (inputValue st))). lia.
  - destruct (isNewsQuery (trim (inputValue st))); [|intros []].
    intros [<- | []]. cbn [body post fetchBodyOf FetchBody.query].
    split; [reflexivity|]. split; [exact Hne|].
    unfold isArticleContent in Ea. apply Nat.ltb_ge in Ea. exact Ea.
Qed.

(** X8. A pasted text without a line feed has no line to tell a
    headline from a body: it is posted whole, both as the title and as
    the content of the article. *)
Theorem single_line_paste_is_title_and_content (w : World) (st : AppState) :
  truthy (trim (inputValue st)) = true ->
  isLoading st = false ->
  200 < length (trim (inputValue st)) ->
  ~ In LF (trim (inputValue st)) ->
  snd (handleSendMessage w st) =
    [ post "http://localhost:8000/api/process"
        (OfProcess
           {| ProcessBody.title := trim (inputValue st);
              ProcessBody.content := trim (inputValue st);
              ProcessBody.source := lit "User Input";
              ProcessBody.include_analysis := true |}) ].
Proof.
  intros Ht Hl Hlen Hlf. rewrite (requests_eq w st). unfold requestsFor.
  assert (Hd : isDisabled st = false) by (apply isDisabled_false; auto).
  rewrite Hd. unfold isArticleContent.
  apply Nat.ltb_lt in Hlen. rewrite Hlen.
  unfold processBodyOf. destruct (single_line _ Hlf) as [-> ->].
  rewrite Ht. reflexivity.
Qed.

Lemma chat_reply_not_error (t : jsstring) :
  In t generalResponses -> t <> errorText.
Proof.
  unfold generalResponses. cbn [In].
  intros [<- | [<- | [<- | [<- | []]]]]; vm_compute; discriminate.
Qed.

Lemma analysis_not_error (t : jsstring) : analysisReply t -> t <> errorText.
Proof.
  intros Ha E. apply analysisReply_head in Ha. rewrite E in Ha.
  vm_compute in Ha. discriminate.
Qed.

(** X9. The connection-error reply is shown exactly when the request of
    the send failed, whatever the way: the fetch was rejected, the
    status was not ok, or the body could not be used.  The three ways
    cannot be told apart in the conversation, and no successful answer,
    no empty result and no chit-chat response is worded like the error. *)
Theorem error_reply_iff_request_failed (w : World) (st : AppState) :
  isDisabled st = false ->
  let t := trim (inputValue st) in
  let failed :=
    (isArticleContent t = true
     /\ forall a, api_process w (processBodyOf t) <> Json a)
    \/ (isArticleContent t = false /\ isNewsQuery t = true
        /\ forall d, api_fetch_and_process w (fetchBodyOf t) <> Json d) in
  exists b,
    last (messages (fst (handleSendMessage w st))) = Some b
    /\ sender b = bot
    /\ (text b = errorText <-> failed).
Proof.
  intros Hd t failed. apply isDisabled_false in Hd as [Ht Hl].
  rewrite (handleSendMessage_accepted w st Ht Hl). cbn [fst messages].
  fold t. exists (botMessage w (fst (respond w t))).
  split; [apply last_snoc|].
  split; [destruct (fst (respond w t)); reflexivity|].
  unfold failed. destruct (isArticleContent t) eqn:Ea.
  - rewrite (respond_article w t Ea). cbn [fst].
    destruct (api_process w (processBodyOf t)) as [| | |a] eqn:Er;
      cbn [botMessage text].
    1-3: split; [intros _; left; split; [reflexivity | discriminate]
                | reflexivity].
    split.
    + intros E. exfalso. refine (analysis_not_error _ _ E).
      exists a. left. reflexivity.
    + intros [[_ Hf] | [[=] _]]. exfalso. apply (Hf a). reflexivity.
  - destruct (isNewsQuery t) eqn:En.
    + rewrite (respond_news w t Ea En). cbn [fst].
      destruct (api_fetch_and_process w (fetchBodyOf t)) as [| | |d] eqn:Er.
      1-3: cbn [botMessage text];
        (split; [intros _; right; repeat split; discriminate | reflexivity]).
      assert (Hno : failed -> False).
      { intros [[[=] _] | [_ [_ Hf]]]. apply (Hf d). reflexivity. }
      split; [|intros Hf; exfalso; apply Hno, Hf].
      intros E. exfalso.
      destruct (FetchData.processed_articles d) as [| |[|a l]];
        cbn [botMessage text] in E.
      1-3: vm_compute in E; discriminate.
      refine (analysis_not_error _ _ E). exists a.
      destruct (isTrendQuery t); [right; right; exists t | right; left];
        reflexivity.
    + rewrite (respond_chat w t Ea En). cbn [fst botMessage text]. split.
      * intros E. exfalso. refine (chat_reply_not_error _ _ E).
        apply nth_In, randomIndex_lt.
      * intros [[[=] _] | [_ [[=] _]]].
Qed.

End Requests.

Lemma includes_weaken (s k x : jsstring) :
  includes s (k ++ x) = true -> includes s k = true.
Proof.
  rewrite !includes_spec. intros [b [a ->]]. exists b, (x ++ a).
  rewrite <- app_assoc. reflexivity.
Qed.

Lemma strOr_falsy (f : field jsstring) (d : jsstring) :
  strTruthy f = false -> strOr f d = d.
Proof.
  destruct f as [| |s]; try reflexivity. simpl. unfold orElse.
  intros ->. reflexivity.
Qed.

Section Replying.
Context `{H : Host}.

(** X10. Two of the eleven keywords of the routing rule decide nothing:
    a text that contains 'trends' contains 'trend', and one that
    contains 'developments' contains 'development', so the rule is the
    one with the nine other keywords.  The same holds of 'trends' in
    the trend rule; and every trend query is a news query, so the trend
    template is within reach of every short message that asks for a
    trend, for progress or for an evolution. *)
Theorem redundant_keywords (t : jsstring) :
  let has := fun k => includes (toLowerCase t) (lit k) in
  isNewsQuery t =
    (has "news" || has "article" || has "analyze" || has "trend"
     || has "recent" || has "latest" || has "development"
     || has "progress" || has "evolution")%string
  /\ isTrendQuery t = (has "trend" || has "progress" || has "evolution")%string
  /\ (isTrendQuery t = true -> isNewsQuery t = true).
Proof.
  intros has.
  assert (Hs : has "trends"%string = true -> has "trend"%string = true)
    by apply (includes_weaken _ (lit "trend") (lit "s")).
  assert (Hd : has "developments"%string = true
               -> has "development"%string = true)
    by apply (includes_weaken _ (lit "development") (lit "s")).
  unfold isNewsQuery, isTrendQuery. fold (has "news"%string).
  change (includes (toLowerCase t) (lit "article")) with (has "article"%string).
  change (includes (toLowerCase t) (lit "analyze")) with (has "analyze"%string).
  change (includes (toLowerCase t) (lit "trend")) with (has "trend"%string).
  change (includes (toLowerCase t) (lit "trends")) with (has "trends"%string).
  change (includes (toLowerCase t) (lit "recent")) with (has "recent"%string).
  change (includes (toLowerCase t) (lit "latest")) with (has "latest"%string).
  change (includes (toLowerCase t) (lit "development"))
    with (has "development"%string).
  change (includes (toLowerCase t) (lit "developments"))
    with (has "developments"%string).
  change (includes (toLowerCase t) (lit "progress")) with (has "progress"%string).
  change (includes (toLowerCase t) (lit "evolution"))
    with (has "evolution"%string).
  generalize dependent (has "trends"%string).
  generalize dependent (has "developments"%string).
  generalize (has "news"%string) (has "article"%string) (has "analyze"%string)
    (has "trend"%string) (has "recent"%string) (has "latest"%string)
    (has "development"%string) (has "progress"%string)
    (has "evolution"%string).
  intros n a z tr re la de pr ev des Hd trs Hs.
  repeat split.
  - apply eq_true_iff_eq. rewrite !orb_true_iff. tauto.
  - apply eq_true_iff_eq. rewrite !orb_true_iff. tauto.
  - rewrite !orb_true_iff. tauto.
Qed.

(** X11. Of the articles an answer carries, only the first is shown:
    two answers that agree on their first article give the same
    conversation, whatever follows in their lists.  The first article is
    shown in the trend template when the query is a trend query and in
    the latest-news template otherwise. *)
Theorem only_first_article_is_shown
  (w w' : World) (st : AppState) (d d' : FetchData.t) (a : Article.t)
  (rest rest' : list Article.t) :
  isDisabled st = false ->
  isArticleContent (trim (inputValue st)) = false ->
  isNewsQuery (trim (inputValue st)) = true ->
  api_fetch_and_process w (fetchBodyOf (trim (inputValue st))) = Json d ->
  api_fetch_and_process w' (fetchBodyOf (trim (inputValue st))) = Json d' ->
  FetchData.processed_articles d = Val (a :: rest) ->
  FetchData.processed_articles d' = Val (a :: rest') ->
  userTime w = userTime w' -> botTime w = botTime w' ->
  handleSendMessage w st = handleSendMessage w' st
  /\ last (messages (fst (handleSendMessage w st)))
     = Some {| text := if isTrendQuery (trim (inputValue st))
                       then trendAnalysisText (trim (inputValue st)) a
                       else latestNewsText a;
               sender := bot;
               timestamp := botTime w |}.
Proof.
  intros Hd Ha Hn Hr Hr' Hp Hp' Hu Hb.
  apply isDisabled_false in Hd as [Ht Hl].
  rewrite (handleSendMessage_accepted w st Ht Hl),
    (handleSendMessage_accepted w' st Ht Hl).
  rewrite (respond_news w _ Ha Hn), (respond_news w' _ Ha Hn).
  rewrite Hr, Hr', Hp, Hp'. cbn [fst snd messages botMessage].
  unfold userMessage. rewrite Hu, Hb.
  split; [reflexivity | apply last_snoc].
Qed.

(** X12. When an article comes without a summary and without a
    description, its text is an excerpt: the first [n] code units of
    the original content followed by three dots, which are added also
    when the content is shorter than [n] and nothing was cut.  Without
    an original content the excerpt reads 'undefined...'. *)
Theorem excerpt_of_missing_summary (n : nat) (a : Article.t) :
  strTruthy (Article.summary a) = false ->
  strTruthy (optChain (Article.original_article a)
               OriginalArticle.description) = false ->
  match optChain (Article.original_article a) OriginalArticle.content with
  | Val c =>
      summaryOf n a = firstn n c ++ lit "..."
      /\ length (summaryOf n a) = Nat.min n (length c) + 3
      /\ (length c <= n -> summaryOf n a = c ++ lit "...")
  | _ => summaryOf n a = lit "undefined..."
  end.
Proof.
  intros Hs Hd. unfold summaryOf. rewrite (strOr_falsy _ _ Hs).
  rewrite (strOr_falsy _ _ Hd).
  destruct (optChain (Article.original_article a) OriginalArticle.content)
    as [| |c]; try reflexivity.
  cbn [optChain show]. unfold substring0. split; [reflexivity|]. split.
  - rewrite length_app, length_firstn. reflexivity.
  - intros Hle. rewrite firstn_all2 by exact Hle. reflexivity.
Qed.

End Replying.

(** ** The message window *)

Lemma bubble_classes (b : Bubble.t) :
  classList (bubbleClassName b) =
    [ lit "message-bubble";
      if isUser (Bubble.message b) then lit "user-bubble"
      else lit "bot-bubble" ]
    ++ (if Bubble.isLast b then [lit "last-message"] else []).
Proof.
  unfold bubbleClassName.
  destruct (isUser (Bubble.message b)), (Bubble.isLast b);
    vm_compute; reflexivity.
Qed.

Lemma class_in (x : jsstring) (l : list jsstring) :
  In x l <-> existsb (strictEq x) l = true.
Proof.
  rewrite existsb_exists. split.
  - intros Hin. exists x. split; [exact Hin | apply strictEq_eq; reflexivity].
  - intros [y [Hin Hy]]. apply strictEq_eq in Hy. subst. exact Hin.
Qed.

Lemma bubble_has_class (b : Bubble.t) :
  (In (lit "last-message") (classList (bubbleClassName b))
   <-> Bubble.isLast b = true)
  /\ (In (lit "user-bubble") (classList (bubbleClassName b))
      <-> isUser (Bubble.message b) = true)
  /\ (In (lit "bot-bubble") (classList (bubbleClassName b))
      <-> isUser (Bubble.message b) = false).
Proof.
  rewrite !class_in, bubble_classes.
  destruct (isUser (Bubble.message b)), (Bubble.isLast b);
    vm_compute; intuition discriminate.
Qed.

(** X13. [MessagesWindow] shows one bubble per message, in the order of
    the messages and keyed by position, and marks exactly the bubble of
    the last message: only that one carries the class 'last-message'
    (none does in an empty conversation).  A bubble carries the class
    'user-bubble' exactly for a message of the user, and 'bot-bubble'
    otherwise. *)
Theorem last_bubble_is_marked (ms : list Message) (i : nat) (b : Bubble.t) :
  MessagesWindow ms !! i = Some b ->
  length (MessagesWindow ms) = length ms
  /\ Bubble.key b = i
  /\ ms !! i = Some (Bubble.message b)
  /\ (Bubble.isLast b = true <-> S i = length ms)
  /\ (In (lit "last-message") (classList (bubbleClassName b))
      <-> S i = length ms)
  /\ (In (lit "user-bubble") (classList (bubbleClassName b))
      <-> sender (Bubble.message b) = user)
  /\ (In (lit "bot-bubble") (classList (bubbleClassName b))
      <-> sender (Bubble.message b) = bot).
Proof.
  intros Hb. destruct (bubble_has_class b) as [Hl [Hu Hbot]].
  unfold MessagesWindow in *. rewrite length_imap.
  apply list_lookup_imap_Some in Hb as [m [Hm Hb]].
  assert (Hlast : Bubble.isLast b = true <-> S i = length ms).
  { rewrite Hb. cbn [Bubble.isLast]. rewrite Z.eqb_eq. lia. }
  assert (Huser : isUser (Bubble.message b) = true
                  <-> sender (Bubble.message b) = user).
  { unfold isUser. destruct (sender (Bubble.message b));
      split; congruence. }
  assert (Hbot' : isUser (Bubble.message b) = false
                  <-> sender (Bubble.message b) = bot).
  { unfold isUser. destruct (sender (Bubble.message b));
      split; congruence. }
  split; [reflexivity|]. split; [rewrite Hb; reflexivity|].
  split; [rewrite Hb; exact Hm|]. split; [exact Hlast|].
  split; [rewrite Hl; exact Hlast|].
  split; [rewrite Hu; exact Huser | rewrite Hbot; exact Hbot'].
Qed.

Lemma last_bubble_is_marked_witness :
  let ms := messages (fst (handleSendMessage Examples.offline
                             (Examples.typed (lit "latest news")))) in
  map Bubble.isLast (MessagesWindow ms) = [false; false; true]
  /\ forall b, MessagesWindow ms !! 2 = Some b ->
       In (lit "last-message") (classList (bubbleClassName b)).
Proof.
  intros ms. split; [reflexivity|]. intros b Hb.
  destruct (last_bubble_is_marked ms 2 b Hb) as [_ [_ [_ [_ [Hl _]]]]].
  apply Hl. reflexivity.
Defined.

(** ** The star field *)

Section Stars.

Variable float : Type.
Variable floorTimes : UnitReal -> nat -> nat.
Variable timesPlus : UnitReal -> Q -> Q -> float.
Variable times : UnitReal -> Q -> float.
Variable draw : nat -> UnitReal.

Lemma pushStars_eq (n i k : nat) (acc : list (Star.t float)) :
  pushStars float timesPlus times draw n i k acc =
    acc ++ map (fun j => star float timesPlus times draw (i + j) (k + 5 * j))
             (seq 0 n).
Proof.
  revert i k acc. induction n as [|n IH]; intros i k acc.
  - simpl. rewrite app_nil_r. reflexivity.
  - cbn [pushStars]. rewrite IH. rewrite <- app_assoc. f_equal.
    cbn [seq map app]. f_equal.
    + f_equal; lia.
    + rewrite <- seq_shift, map_map. apply map_ext. intros j.
      f_equal; lia.
Qed.

(** X14. [generateStars] makes [starCount] stars, at least 150 of them,
    with the identifiers 0, 1, 2, ... in this order, so that no two
    stars share their key; and the star of index [i] is made of the five
    draws that follow the first [1 + 5 i], in the order size, opacity,
    position, duration, delay: no draw is used twice. *)
Theorem stars_are_numbered_in_order :
  let stars := generateStars float floorTimes timesPlus times draw in
  let n := starCount floorTimes draw in
  stars = map (fun i => star float timesPlus times draw i (1 + 5 * i)) (seq 0 n)
  /\ length stars = n
  /\ 150 <= length stars
  /\ map Star.id stars = seq 0 n
  /\ NoDup (map Star.id stars).
Proof.
  intros stars n.
  assert (Hs : stars
               = map (fun i => star float timesPlus times draw i (1 + 5 * i))
                   (seq 0 n)).
  { unfold stars, generateStars. rewrite pushStars_eq. reflexivity. }
  assert (Hid : map Star.id stars = seq 0 n).
  { rewrite Hs, map_map. cbn [Star.id star]. apply map_id. }
  assert (Hlen : length stars = n).
  { rewrite Hs, length_map, length_seq. reflexivity. }
  split; [exact Hs|]. split; [exact Hlen|]. split.
  - rewrite Hlen. unfold n, starCount. lia.
  - split; [exact Hid|]. rewrite Hid. apply NoDup_seq.
Qed.

End Stars.

(** ** More concrete inputs *)

Module MoreExamples.

Import ExampleHost.

(** A pasted text of 221 code units without a line feed. *)
Definition singleLine : jsstring :=
  List.concat (repeat (lit "Stocks rally today. ") 11) ++ lit "!".

(** The service answers every query with the articles [l]. *)
Definition answering (l : list Article.t) : World :=
  {| api_process := fun _ => HttpError;
     api_fetch_and_process :=
       fun _ => Json {| FetchData.processed_articles := Val l |};
     random := Examples.half;
     userTime := 1000;
     botTime := 1800 |}.

(** An article that has only its original content. *)
Definition bare : Article.t :=
  {| Article.title := Val (lit "Y");
     Article.summary := Null;
     Article.source := Undefined;
     Article.sentiment_analysis := Null;
     Article.fake_news_detection := Null;
     Article.original_article :=
       Val {| OriginalArticle.description := Val [];
              OriginalArticle.content := Val (lit "Short.");
              OriginalArticle.source := Undefined;
              OriginalArticle.published_at := Null |} |}.

End MoreExamples.

Lemma request_fields_are_filled_witness :
  let b := processBodyOf (trim Examples.pasted) in
  ProcessBody.title b = firstLine (trim Examples.pasted)
  /\ ProcessBody.title b <> []
  /\ ProcessBody.content b <> []
  /\ length (ProcessBody.content b) <= length Examples.pasted.
Proof.
  intros b.
  pose proof (request_fields_are_filled (H := ExampleHost.host)
                Examples.offline (Examples.typed Examples.pasted)
                (post "http://localhost:8000/api/process" (OfProcess b)))
    as Hfields.
  cbn [body post] in Hfields.
  destruct Hfields as [Ht [Hne [_ [Hc [_ [_ Hl]]]]]].
  - rewrite (requests_eq Examples.offline (Examples.typed Examples.pasted)).
    left. reflexivity.
  - split; [exact Ht|]. split; [exact Hne|]. split; [exact Hc | exact Hl].
Defined.

Lemma single_line_paste_is_title_and_content_witness :
  snd (handleSendMessage Examples.offline
         (Examples.typed MoreExamples.singleLine)) =
    [ post "http://localhost:8000/api/process"
        (OfProcess
           {| ProcessBody.title := MoreExamples.singleLine;
              ProcessBody.content := MoreExamples.singleLine;
              ProcessBody.source := lit "User Input";
              ProcessBody.include_analysis := true |}) ].
Proof.
  apply (single_line_paste_is_title_and_content (H := ExampleHost.host)
           Examples.offline (Examples.typed MoreExamples.singleLine)
           eq_refl eq_refl).
  - vm_compute. lia.
  - vm_compute. intuition discriminate.
Defined.

Lemma error_reply_iff_request_failed_witness :
  exists b,
    last (messages (fst (handleSendMessage Examples.offline
                           (Examples.typed Examples.pasted)))) = Some b
    /\ text b = errorText.
Proof.
  destruct (error_reply_iff_request_failed (H := ExampleHost.host)
              Examples.offline (Examples.typed Examples.pasted) eq_refl)
    as [b [Hlast [_ Herr]]].
  exists b. split; [exact Hlast|]. apply Herr.
  left. split; [reflexivity | discriminate].
Defined.

Lemma only_first_article_is_shown_witness :
  let st := Examples.typed (lit "latest news") in
  handleSendMessage
    (MoreExamples.answering [MoreExamples.bare; Examples.degradedArticle]) st
  = handleSendMessage (MoreExamples.answering [MoreExamples.bare]) st.
Proof.
  intros st.
  apply (only_first_article_is_shown (H := ExampleHost.host)
           (MoreExamples.answering [MoreExamples.bare; Examples.degradedArticle])
           (MoreExamples.answering [MoreExamples.bare]) st
           {| FetchData.processed_articles :=
                Val [MoreExamples.bare; Examples.degradedArticle] |}
           {| FetchData.processed_articles := Val [MoreExamples.bare] |}
           MoreExamples.bare [Examples.degradedArticle] []);
    reflexivity.
Defined.

Lemma excerpt_of_missing_summary_witness :
  summaryOf 300 MoreExamples.bare = lit "Short...."
  /\ length (summaryOf 300 MoreExamples.bare) = 9.
Proof.
  pose proof (excerpt_of_missing_summary (H := ExampleHost.host) 300
                MoreExamples.bare eq_refl eq_refl) as Hex.
  cbn [optChain Article.original_article MoreExamples.bare
       OriginalArticle.content] in Hex.
  destruct Hex as [_ [Hlen Hshort]].
  split; [apply Hshort; vm_compute; lia | exact Hlen].
Defined.
